(** * repo2text: ignore rules, tree walk and document assembly

    A shallow embedding of [repo2text/repo2text.py].  Python [str] values are
    [string]s (a text is held in its UTF-8 encoding), [bytes] are
    [list byte], the directory tree a nested inductive type, and the console
    an explicit state threaded through the printing functions. *)

From Stdlib Require Import Strings.String Strings.Ascii Strings.Byte.
From Stdlib Require Import List Bool Arith NArith Lia.
From Stdlib Require Import Orders Sorted Permutation Mergesort.
Import ListNotations.
Local Open Scope list_scope.
Local Open Scope string_scope.

(** ** Python string operations used by the program *)

Module Str.

Definition slash : ascii := "/"%char.
Definition newline : ascii := "010"%char.
Definition carriage_return : ascii := "013"%char.

Definition nl : string := String newline "".

(** [sep.join(parts)] *)
Definition join (sep : string) (parts : list string) : string :=
  String.concat sep parts.

(** [s.startswith(p)] *)
Fixpoint startswith (p s : string) : bool :=
  match p, s with
  | "", _ => true
  | String _ _, "" => false
  | String a p', String b s' => Ascii.eqb a b && startswith p' s'
  end.

(** [s.endswith(p)] *)
Fixpoint endswith (p s : string) : bool :=
  (s =? p) || match s with
              | "" => false
              | String _ s' => endswith p s'
              end.

(** [s.split(c)] for a one-character separator: never empty. *)
Fixpoint split (c : ascii) (s : string) : list string :=
  match s with
  | "" => [""]
  | String a s' =>
      if Ascii.eqb a c then "" :: split c s'
      else match split c s' with
           | [] => [String a ""]
           | h :: t => String a h :: t
           end
  end.

(** [s.count(c)] for a one-character needle *)
Fixpoint count (c : ascii) (s : string) : nat :=
  match s with
  | "" => 0
  | String a s' => (if Ascii.eqb a c then 1 else 0) + count c s'
  end.

(** [' ' * n] *)
Fixpoint spaces (n : nat) : string :=
  match n with
  | 0 => ""
  | S n' => String " " (spaces n')
  end.

(** [needle in s] *)
Fixpoint contains (needle s : string) : bool :=
  startswith needle s
  || match s with
     | "" => false
     | String _ s' => contains needle s'
     end.

(** [s.rstrip('\n')] *)
Fixpoint rstrip_nl (s : string) : string :=
  match s with
  | "" => ""
  | String a s' =>
      match rstrip_nl s' with
      | "" => if Ascii.eqb a newline then "" else String a ""
      | r => String a r
      end
  end.

(** The characters [str.strip()] removes, within ASCII. *)
Definition is_space (a : ascii) : bool :=
  let n := nat_of_ascii a in
  ((n =? 32) || ((9 <=? n) && (n <=? 13)) || ((28 <=? n) && (n <=? 31)))%nat.

Fixpoint lstrip (s : string) : string :=
  match s with
  | "" => ""
  | String a s' => if is_space a then lstrip s' else s
  end.

Fixpoint rstrip (s : string) : string :=
  match s with
  | "" => ""
  | String a s' =>
      match rstrip s' with
      | "" => if is_space a then "" else String a ""
      | r => String a r
      end
  end.

Definition strip (s : string) : string := lstrip (rstrip s).

(** [s.isascii()]: a [str] is held as its UTF-8 bytes, and a character is
    within ASCII exactly when it is one byte below 128. *)
Fixpoint isascii (s : string) : bool :=
  match s with
  | "" => true
  | String a s' => (nat_of_ascii a <? 128)%nat && isascii s'
  end.

End Str.

(** ** [posixpath] and [pathlib] *)

Module Path.

(** [os.path.join(a, b)] *)
Definition join (a b : string) : string :=
  if Str.startswith "/" b then b
  else if (a =? "") || Str.endswith "/" a then a ++ b
  else a ++ "/" ++ b.

(** The loop of [normpath] over the components: [acc] is [new_comps],
    most recent component first. *)
Fixpoint norm_comps (initial_slashes : bool) (acc : list string)
         (comps : list string) : list string :=
  match comps with
  | [] => rev acc
  | comp :: rest =>
      if (comp =? "") || (comp =? ".") then norm_comps initial_slashes acc rest
      else if negb (comp =? "..")
              || (negb initial_slashes && match acc with [] => true | _ => false end)
              || match acc with top :: _ => top =? ".." | [] => false end
      then norm_comps initial_slashes (comp :: acc) rest
      else norm_comps initial_slashes (tl acc) rest
  end.

(** [os.path.normpath(path)] *)
Definition normpath (path : string) : string :=
  if path =? "" then "."
  else
    let initial := Str.startswith "/" path in
    let slashes :=
      if initial then
        if Str.startswith "//" path && negb (Str.startswith "///" path)
        then "//" else "/"
      else "" in
    let p := slashes ++ Str.join "/" (norm_comps initial [] (Str.split Str.slash path)) in
    if p =? "" then "." else p.

(** [os.path.abspath(path)] in the working directory [cwd] *)
Definition abspath (cwd path : string) : string :=
  if Str.startswith "/" path then normpath path else normpath (join cwd path).

(** [[x for x in p.split(sep) if x]] *)
Definition parts (p : string) : list string :=
  filter (fun x => negb (x =? "")) (Str.split Str.slash p).

(** [commonprefix([a, b])] of two lists of components *)
Fixpoint commonprefix (a b : list string) : list string :=
  match a, b with
  | x :: a', y :: b' => if x =? y then x :: commonprefix a' b' else []
  | _, _ => []
  end.

(** [os.path.relpath(path, start)] in the working directory [cwd], for a
    [path] that is not empty. *)
Definition relpath (cwd path start : string) : string :=
  let start_list := parts (abspath cwd start) in
  let path_list := parts (abspath cwd path) in
  let i := List.length (commonprefix start_list path_list) in
  let rel_list :=
    (repeat ".." (List.length start_list - i) ++ skipn i path_list)%list in
  match rel_list with
  | [] => "."
  | first :: rest => fold_left join rest first
  end.

(** [os.path.basename(p)]: what follows the last separator. *)
Definition basename (p : string) : string := last (Str.split Str.slash p) "".

(** [pathlib.Path(p).name]: the last part, empty and [.] parts dropped. *)
Definition name (p : string) : string :=
  last (filter (fun x => negb ((x =? "") || (x =? ".")))
               (Str.split Str.slash p)) "".

End Path.

(** ** Regular expressions, as far as [pathspec] produces them

    [pathspec] compiles every gitwildmatch pattern to a Python regular
    expression of the shape [^...$].  The expressions are kept as syntax
    trees over bytes and matched with derivatives. *)

Module Re.

Inductive regex : Type :=
| Void
| Eps
| Lit (a : ascii)
| ByteRange (lo hi : nat)
| Class (negated : bool) (ranges : list (ascii * ascii))
| Seq (r1 r2 : regex)
| Alt (r1 r2 : regex)
| Star (r : regex).

Definition in_range (a : ascii) (r : ascii * ascii) : bool :=
  (nat_of_ascii (fst r) <=? nat_of_ascii a)%nat
  && (nat_of_ascii a <=? nat_of_ascii (snd r))%nat.

(** A class ranges over the ASCII characters; a character outside ASCII is
    a lead byte and its continuation bytes, see [non_ascii]. *)
Definition class_mem (negated : bool) (ranges : list (ascii * ascii))
           (a : ascii) : bool :=
  (nat_of_ascii a <? 128)%nat && xorb negated (existsb (in_range a) ranges).

Definition plus (r : regex) : regex := Seq r (Star r).
Definition opt (r : regex) : regex := Alt Eps r.

(** One character outside ASCII in UTF-8: a lead byte and the continuation
    bytes after it. *)
Definition non_ascii : regex :=
  Seq (ByteRange 194 244) (plus (ByteRange 128 191)).

(** [[^/]] *)
Definition not_slash : regex := Alt (Class true [(Str.slash, Str.slash)]) non_ascii.

(** [.], which leaves out the newline *)
Definition dot : regex := Alt (Class true [(Str.newline, Str.newline)]) non_ascii.

Fixpoint nullable (r : regex) : bool :=
  match r with
  | Void => false
  | Eps => true
  | Lit _ => false
  | ByteRange _ _ => false
  | Class _ _ => false
  | Seq r1 r2 => nullable r1 && nullable r2
  | Alt r1 r2 => nullable r1 || nullable r2
  | Star _ => true
  end.

Definition seq (r1 r2 : regex) : regex :=
  match r1, r2 with
  | Void, _ => Void
  | _, Void => Void
  | Eps, _ => r2
  | _, _ => Seq r1 r2
  end.

Definition alt (r1 r2 : regex) : regex :=
  match r1, r2 with
  | Void, _ => r2
  | _, Void => r1
  | _, _ => Alt r1 r2
  end.

Fixpoint deriv (a : ascii) (r : regex) : regex :=
  match r with
  | Void => Void
  | Eps => Void
  | Lit b => if Ascii.eqb a b then Eps else Void
  | ByteRange lo hi =>
      if ((lo <=? nat_of_ascii a) && (nat_of_ascii a <=? hi))%nat then Eps else Void
  | Class negated ranges => if class_mem negated ranges a then Eps else Void
  | Seq r1 r2 =>
      if nullable r1 then alt (seq (deriv a r1) r2) (deriv a r2)
      else seq (deriv a r1) r2
  | Alt r1 r2 => alt (deriv a r1) (deriv a r2)
  | Star r1 => seq (deriv a r1) (Star r1)
  end.

(** The whole of [s] is in the language of [r]. *)
Fixpoint matches (r : regex) (s : string) : bool :=
  match s with
  | "" => nullable r
  | String a s' => matches (deriv a r) s'
  end.

Fixpoint chop_newline (s : string) : option string :=
  match s with
  | "" => None
  | String a "" => if Ascii.eqb a Str.newline then Some "" else None
  | String a s' => option_map (String a) (chop_newline s')
  end.

(** [re.compile('^' + r + '$').match(s) is not None]: Python's [$] also
    matches just before a newline that ends the string. *)
Definition match_anchored (r : regex) (s : string) : bool :=
  matches r s
  || match chop_newline s with
     | Some s' => matches r s'
     | None => false
     end.

End Re.

(** ** Calls that may raise *)

(** What a call that may raise does: [Raises e] carries [str(e)]. *)
Inductive outcome (A : Type) : Type :=
| Returns (a : A)
| Raises (e : string).
Arguments Returns {A} a.
Arguments Raises {A} e.

(** ** The console

    [print] calls are recorded in order; the functions that print are written
    in a state monad over the console. *)

Module Console.

Definition t : Type := list string.

Definition M (A : Type) : Type := t -> A * t.

Definition ret {A : Type} (a : A) : M A := fun con => (a, con).

Definition bind {A B : Type} (m : M A) (k : A -> M B) : M B :=
  fun con => let (a, con') := m con in k a con'.

(** [print(s)] where no [try] is around the call: were [sys.stdout] to
    refuse [s], the exception would leave the function and end the run, so
    a run that goes on has printed [s]. *)
Definition print (s : string) : M unit := fun con => (tt, (con ++ [s])%list).

(** [sys.stdout] as far as a [print] can fail on one text and work on the
    next: the stream encodes the text it is given, and a text with a
    character that the encoding of the stream lacks raises
    [UnicodeEncodeError] before any of it is written.  A [Stdout] gives the
    message of that exception for a text, and [None] for a text the
    encoding has every character of. *)
Definition Stdout : Type := string -> option string.

(** The encoding of a console has the characters of ASCII, whichever it
    is. *)
Definition refused (stdout : Stdout) (s : string) : option string :=
  if Str.isascii s then None else stdout s.

(** [print(s)] under a [try]: the exception, when there is one, is handed
    to the handler. *)
Definition try_print (stdout : Stdout) (s : string) : M (outcome unit) :=
  fun con =>
    match refused stdout s with
    | None => (Returns tt, (con ++ [s])%list)
    | Some e => (Raises e, con)
    end.

End Console.

Notation "x <- m ;; k" := (Console.bind m (fun x => k))
  (at level 61, m at next level, right associativity).
Notation "m ;; k" := (Console.bind m (fun _ => k))
  (at level 61, right associativity).

(** [colorama]'s escape sequences *)
Module Colorama.
Definition esc : string := String (ascii_of_nat 27) "[".
Definition GREEN : string := esc ++ "32m".
Definition MAGENTA : string := esc ++ "35m".
Definition WHITE : string := esc ++ "37m".
Definition YELLOW : string := esc ++ "33m".
Definition RED : string := esc ++ "31m".
Definition CYAN : string := esc ++ "36m".
Definition RESET_ALL : string := esc ++ "0m".
End Colorama.

Definition print_header (file : string) : Console.M unit :=
  Console.print (Colorama.GREEN ++ "### File: " ++ file ++ Colorama.RESET_ALL).

Definition print_code_block_indicator : Console.M unit :=
  Console.print (Colorama.MAGENTA ++ "### Code block below:" ++ Colorama.RESET_ALL).

(** [print_truncated_content(content)]: its one call sits under the [try]
    of [build_final_string]. *)
Definition print_truncated_content (stdout : Console.Stdout) (content : string)
  : Console.M (outcome unit) :=
  Console.try_print stdout
    (Colorama.WHITE ++ content ++ "..." ++ Str.nl ++ Colorama.RESET_ALL).

Definition print_warning (message : string) : Console.M unit :=
  Console.print (Colorama.YELLOW ++ message ++ Colorama.RESET_ALL).

(** [print_warning(message)] as called under the [try] of
    [build_final_string]. *)
Definition try_print_warning (stdout : Console.Stdout) (message : string)
  : Console.M (outcome unit) :=
  Console.try_print stdout (Colorama.YELLOW ++ message ++ Colorama.RESET_ALL).

Definition print_error (message : string) : Console.M unit :=
  Console.print (Colorama.RED ++ message ++ Colorama.RESET_ALL).

Definition print_info (message : string) : Console.M unit :=
  Console.print (Colorama.CYAN ++ message ++ Colorama.RESET_ALL).

(** ** [pathspec]: gitwildmatch patterns and path specs

    The program builds its matcher with [pathspec.PathSpec.from_lines
    ('gitwildmatch', lines)], adds two specs with [+] and asks
    [match_file].  This module follows the library: a pattern is an
    [include] flag and a compiled expression, a spec is the list of its
    patterns, [+] appends the lists and [match_file] lets the last pattern
    that matches decide. *)

Module PathSpec.

Record Pattern : Type := mkPattern {
  include : option bool;       (* [None] for comments and blank lines *)
  regex : option Re.regex
}.

Definition t : Type := list Pattern.

(** *** [GitWildMatchPattern._translate_segment_glob] *)

Inductive glob_state : Type :=
| Normal
| Escape
| ClassOpen
| ClassFirst (negated : bool)
| ClassBody (negated : bool) (body : string).

Fixpoint has_bracket_end (s : string) : bool :=
  match s with
  | "" => false
  | String a s' => Ascii.eqb a "]" || has_bracket_end s'
  end.

(** The scan for the closing bracket that follows a [[]: an optional [!] or
    [^], an optional [[]] taken literally, then the first []]. *)
Definition bracket_closes (s : string) : bool :=
  let s1 := match s with
            | String a s' => if Ascii.eqb a "!" || Ascii.eqb a "^" then s' else s
            | "" => s
            end in
  let s2 := match s1 with
            | String a s' => if Ascii.eqb a "]" then s' else s1
            | "" => s1
            end in
  has_bracket_end s2.

(** The members of a bracket expression as Python's [re] reads them:
    single characters and [lo-hi] ranges; a range that runs backwards does
    not compile. *)
Fixpoint class_items (s : string) : option (list (ascii * ascii)) :=
  match s with
  | "" => Some []
  | String lo (String "-" (String hi rest)) =>
      if (nat_of_ascii hi <? nat_of_ascii lo)%nat then None
      else option_map (cons (lo, hi)) (class_items rest)
  | String a rest => option_map (cons (a, a)) (class_items rest)
  end.

Definition class_regex (negated : bool) (body : string) : option Re.regex :=
  match class_items body with
  | Some items =>
      Some (if negated then Re.Alt (Re.Class true items) Re.non_ascii
            else Re.Class false items)
  | None => None
  end.

Fixpoint translate_glob (st : glob_state) (s : string) : option (list Re.regex) :=
  match s with
  | "" =>
      match st with
      | Normal => Some []
      | _ => None                     (* a trailing escape raises *)
      end
  | String a s' =>
      match st with
      | Escape => option_map (cons (Re.Lit a)) (translate_glob Normal s')
      | Normal =>
          if Ascii.eqb a "\" then translate_glob Escape s'
          else if Ascii.eqb a "*" then
            option_map (cons (Re.Star Re.not_slash)) (translate_glob Normal s')
          else if Ascii.eqb a "?" then
            option_map (cons Re.not_slash) (translate_glob Normal s')
          else if Ascii.eqb a "[" then
            if bracket_closes s' then translate_glob ClassOpen s'
            else option_map (cons (Re.Lit a)) (translate_glob Normal s')
          else option_map (cons (Re.Lit a)) (translate_glob Normal s')
      | ClassOpen =>
          if Ascii.eqb a "!" || Ascii.eqb a "^" then translate_glob (ClassFirst true) s'
          else translate_glob (ClassBody false (String a "")) s'
      | ClassFirst negated => translate_glob (ClassBody negated (String a "")) s'
      | ClassBody negated body =>
          if Ascii.eqb a "]" then
            match class_regex negated body, translate_glob Normal s' with
            | Some r, Some rs => Some (r :: rs)
            | _, _ => None
            end
          else translate_glob (ClassBody negated (body ++ String a "")) s'
      end
  end.

Definition translate_segment_glob (seg : string) : option (list Re.regex) :=
  translate_glob Normal seg.

(** *** [GitWildMatchPattern.pattern_to_regex] *)

(** Runs of [**] segments collapse to one. *)
Fixpoint collapse_double_star (segs : list string) : list string :=
  match segs with
  | [] => []
  | seg :: rest =>
      match collapse_double_star rest with
      | next :: rest' =>
          if (seg =? "**") && (next =? "**") then next :: rest'
          else seg :: next :: rest'
      | [] => [seg]
      end
  end.

Definition slash_rest : Re.regex := Re.opt (Re.Seq (Re.Lit Str.slash) (Re.Star Re.dot)).

(** The loop over the normalised segments; [first] tells the segment of
    index 0. *)
Fixpoint segments_regex (first need_slash : bool) (segs : list string)
  : option (list Re.regex) :=
  match segs with
  | [] => Some []
  | seg :: rest =>
      let is_end := match rest with [] => true | _ => false end in
      let lead := if need_slash then [Re.Lit Str.slash] else [] in
      let tail := if is_end then [slash_rest] else [] in
      if seg =? "**" then
        if first && is_end then
          (* a lone double star: a first segment, then anything below it *)
          Some [Re.plus Re.not_slash; slash_rest]
        else if first then
          (* leading double star: any leading segments *)
          option_map (cons (Re.opt (Re.Seq (Re.plus Re.dot) (Re.Lit Str.slash))))
                     (segments_regex false false rest)
        else if is_end then
          (* trailing double star: anything below *)
          Some [Re.Lit Str.slash; Re.Star Re.dot]
        else
          (* inner double star: zero or more inner segments *)
          option_map (cons (Re.opt (Re.Seq (Re.Lit Str.slash) (Re.plus Re.dot))))
                     (segments_regex false true rest)
      else if seg =? "*" then
        option_map (fun rs => lead ++ [Re.plus Re.not_slash] ++ tail ++ rs)%list
                   (segments_regex false true rest)
      else
        match translate_segment_glob seg, segments_regex false true rest with
        | Some g, Some rs => Some (lead ++ g ++ tail ++ rs)%list
        | _, _ => None
        end
  end.

Definition seq_all (rs : list Re.regex) : Re.regex :=
  fold_right Re.Seq Re.Eps rs.

Definition set_last (segs : list string) (seg : string) : list string :=
  (removelast segs ++ [seg])%list.

(** [None] stands for [GitWildMatchPatternError] (or [re.error]). *)
Definition pattern_to_regex (line : string) : option Pattern :=
  let pattern := if Str.endswith "\ " line then Str.lstrip line else Str.strip line in
  if Str.startswith "#" pattern then Some (mkPattern None None)
  else if pattern =? "/" then Some (mkPattern None None)
  else if pattern =? "" then Some (mkPattern None None)
  else
    let negated := Str.startswith "!" pattern in
    let pattern := if negated then substring 1 (String.length pattern) pattern else pattern in
    let segs := collapse_double_star (Str.split Str.slash pattern) in
    let override :=
      match segs with
      | [s0; s1] => (s0 =? "**") && (s1 =? "")
      | _ => false
      end in
    let segs :=
      match segs with
      | s0 :: rest =>
          if s0 =? "" then rest
          else match rest with
               | [] => if s0 =? "**" then segs else "**" :: segs
               | [s1] => if (s1 =? "") && negb (s0 =? "**") then "**" :: segs else segs
               | _ => segs
               end
      | [] => segs
      end in
    match segs with
    | [] => None
    | _ =>
        let segs :=
          if (last segs "x" =? "") && (1 <? List.length segs)%nat
          then set_last segs "**" else segs in
        if override then
          (* the pattern of two stars and a slash: every path with a slash *)
          Some (mkPattern (Some (negb negated))
                  (Some (seq_all [Re.plus Re.dot; Re.Lit Str.slash; Re.Star Re.dot])))
        else
          match segments_regex true false segs with
          | Some rs => Some (mkPattern (Some (negb negated)) (Some (seq_all rs)))
          | None => None
          end
    end.

(** *** [PathSpec] *)

(** [PathSpec.from_lines('gitwildmatch', lines)]: empty lines are skipped,
    one line that does not compile fails the whole call. *)
Fixpoint from_lines (lines : list string) : option t :=
  match lines with
  | [] => Some []
  | line :: rest =>
      if line =? "" then from_lines rest
      else match pattern_to_regex line, from_lines rest with
           | Some p, Some ps => Some (p :: ps)
           | _, _ => None
           end
  end.

(** [self + other] *)
Definition add (self other : t) : t := (self ++ other)%list.

(** [util.normalize_file] on a POSIX system *)
Definition normalize_file (file : string) : string :=
  if Str.startswith "/" file then substring 1 (String.length file) file
  else if Str.startswith "./" file then substring 2 (String.length file) file
  else file.

(** [pattern.match_file(file) is not None] *)
Definition pattern_matches (p : Pattern) (file : string) : bool :=
  match regex p with
  | Some r => Re.match_anchored r file
  | None => false
  end.

(** [util.check_match_file]: the last pattern that matches decides. *)
Definition check_match_file (patterns : t) (file : string) : option bool :=
  fold_left
    (fun out p =>
       match include p with
       | Some inc => if pattern_matches p file then Some inc else out
       | None => out
       end)
    patterns None.

(** [spec.match_file(file)] *)
Definition match_file (spec : t) (file : string) : bool :=
  match check_match_file spec (normalize_file file) with
  | Some inc => inc
  | None => false
  end.

End PathSpec.

Definition default_ignore_patterns : list string :=
  [ ".git/"; ".svn/"; ".hg/"; ".DS_Store"; "__pycache__/";
    "*.pyc"; "*.pyo"; "*.pyd"; "*$py.class"; "*.so";
    "build/"; "dist/"; "downloads/"; "eggs/"; ".eggs/";
    "lib/"; "lib64/"; "parts/"; "sdist/" ].

(** ** The directory tree and [os.walk] *)

#[local] Set Warnings "-register-all".

(** A directory as [os.scandir] shows it: the names that are not
    directories, and the sub-directories in the order of the scan.  A
    sub-directory that [os.walk] lists but does not enter (a symbolic link,
    or one it cannot scan) has no tree below it. *)
Inductive Dir : Type :=
| MkDir (files : list string) (subdirs : list (string * option Dir)).

(** [sorted(files)] *)
Module StringOrder <: TotalLeBool.
Definition t := string.
Definition leb := String.leb.
Definition leb_total : forall a1 a2, leb a1 a2 = true \/ leb a2 a1 = true :=
  String.leb_total.
End StringOrder.

Module StringSort := Sort StringOrder.

Definition sorted (files : list string) : list string := StringSort.sort files.

Definition walk_item : Type := string * list string * list string.

(** [os.walk(top)], top-down.  The loop body prunes [dirs] in place before
    the generator goes on; [keep root d] is the test the body applies to the
    sub-directory [d] of [root]. *)
Fixpoint os_walk (keep : string -> string -> bool) (top : string) (d : Dir)
  : list walk_item :=
  match d with
  | MkDir files subdirs =>
      (top, map fst subdirs, files)
      :: flat_map
           (fun entry : string * option Dir =>
              if keep top (fst entry) then
                match snd entry with
                | Some sub => os_walk keep (Path.join top (fst entry)) sub
                | None => []
                end
              else [])
           subdirs
  end.

(** The test of the comprehension that prunes [dirs], the same in both
    functions.  Here and below [cwd] is the working directory of the
    process, which [main()] has changed to the root directory. *)
Definition keep_dir (cwd : string) (spec : PathSpec.t) (root d : string) : bool :=
  negb (PathSpec.match_file spec
          (Path.normpath (Path.join (Path.relpath cwd root ".") d) ++ "/")).

(** The condition under which a file is listed, the same in both functions. *)
Definition file_included (spec : PathSpec.t) (rel_file_path : string) : bool :=
  negb (PathSpec.match_file spec rel_file_path)
  && negb (Path.name rel_file_path =? ".gitignore").

(** One iteration of the loop of [build_project_tree]. *)
Definition tree_step (cwd : string) (spec : PathSpec.t) (tree : list string)
           (item : walk_item) : list string :=
  let '(root, _, files) := item in
  let rel_path := Path.relpath cwd root "." in
  let level := if rel_path =? "." then 0 else Str.count Str.slash rel_path + 1 in
  let indent := Str.spaces (4 * level) in
  let directory := if negb (rel_path =? ".") then Path.basename root else "." in
  let tree := (tree ++ [(indent ++ directory ++ "/")%string])%list in
  let subindent := Str.spaces (4 * (level + 1)) in
  fold_left
    (fun tree file =>
       let rel_file_path :=
         Path.normpath (Path.join (Path.relpath cwd root ".") file) in
       if file_included spec rel_file_path
       then (tree ++ [(subindent ++ file)%string])%list
       else tree)
    (sorted files) tree.

Definition tree_lines (cwd : string) (spec : PathSpec.t) (fs : Dir) : list string :=
  fold_left (tree_step cwd spec) (os_walk (keep_dir cwd spec) "." fs) [].

Definition build_project_tree (cwd : string) (spec : PathSpec.t) (fs : Dir)
  : string :=
  Str.join Str.nl (tree_lines cwd spec fs).

(** One iteration of the loop of [collect_files]. *)
Definition collect_step (cwd : string) (spec : PathSpec.t)
           (files_to_include : list string) (item : walk_item) : list string :=
  let '(root, _, files) := item in
  fold_left
    (fun files_to_include file =>
       let rel_file_path :=
         Path.normpath (Path.join (Path.relpath cwd root ".") file) in
       if file_included spec rel_file_path
       then (files_to_include ++ [rel_file_path])%list
       else files_to_include)
    (sorted files) files_to_include.

Definition collect_files (cwd : string) (spec : PathSpec.t) (fs : Dir)
  : list string :=
  fold_left (collect_step cwd spec) (os_walk (keep_dir cwd spec) "." fs) [].

(** ** Reading files *)

(** A file as the two [open] calls of the program see it: the bytes behind
    [open(path, 'rb')] and the bytes behind
    [open(path, 'r', encoding='utf-8', errors='replace')], each of which may
    raise instead. *)
Record FileState : Type := mkFileState {
  binary_open : outcome (list byte);
  text_open : outcome (list byte)
}.

Definition World : Type := string -> FileState.

(** A file that both calls open and read alike. *)
Definition regular (content : list byte) : FileState :=
  mkFileState (Returns content) (Returns content).

(** A file no call can open. *)
Definition unreadable (e : string) : FileState :=
  mkFileState (Raises e) (Raises e).

Definition byte_in (lo hi : nat) (b : byte) : bool :=
  ((lo <=? Byte.to_nat b) && (Byte.to_nat b <=? hi))%nat.

Definition chr (b : byte) : string := String (ascii_of_byte b) "".

(** U+FFFD in UTF-8 *)
Definition replacement_character : string :=
  String (ascii_of_nat 239) (String (ascii_of_nat 191) (String (ascii_of_nat 189) "")).

(** The range of the second byte after the lead byte [b0] of a sequence of
    three or four bytes. *)
Definition second_byte_ok (b0 b1 : byte) : bool :=
  let n := Byte.to_nat b0 in
  if (n =? 224)%nat then byte_in 160 191 b1
  else if (n =? 237)%nat then byte_in 128 159 b1
  else if (n =? 240)%nat then byte_in 144 191 b1
  else if (n =? 244)%nat then byte_in 128 143 b1
  else byte_in 128 191 b1.

(** [bytes.decode('utf-8', errors='replace')]: a well-formed sequence is
    kept, every maximal ill-formed part becomes one U+FFFD. *)
Fixpoint utf8_decode (bs : list byte) : string :=
  match bs with
  | [] => ""
  | b0 :: r0 =>
      if byte_in 0 127 b0 then chr b0 ++ utf8_decode r0
      else if byte_in 194 223 b0 then
        match r0 with
        | b1 :: r1 =>
            if byte_in 128 191 b1 then chr b0 ++ chr b1 ++ utf8_decode r1
            else replacement_character ++ utf8_decode r0
        | [] => replacement_character
        end
      else if byte_in 224 239 b0 then
        match r0 with
        | b1 :: r1 =>
            if second_byte_ok b0 b1 then
              match r1 with
              | b2 :: r2 =>
                  if byte_in 128 191 b2
                  then chr b0 ++ chr b1 ++ chr b2 ++ utf8_decode r2
                  else replacement_character ++ utf8_decode r1
              | [] => replacement_character
              end
            else replacement_character ++ utf8_decode r0
        | [] => replacement_character
        end
      else if byte_in 240 244 b0 then
        match r0 with
        | b1 :: r1 =>
            if second_byte_ok b0 b1 then
              match r1 with
              | b2 :: r2 =>
                  if byte_in 128 191 b2 then
                    match r2 with
                    | b3 :: r3 =>
                        if byte_in 128 191 b3
                        then chr b0 ++ chr b1 ++ chr b2 ++ chr b3 ++ utf8_decode r3
                        else replacement_character ++ utf8_decode r2
                    | [] => replacement_character
                    end
                  else replacement_character ++ utf8_decode r1
              | [] => replacement_character
              end
            else replacement_character ++ utf8_decode r0
        | [] => replacement_character
        end
      else replacement_character ++ utf8_decode r0
  end.

(** Text mode with [newline=None]: [\r\n] and [\r] are read as [\n]. *)
Fixpoint universal_newlines (s : string) : string :=
  match s with
  | "" => ""
  | String a rest =>
      if Ascii.eqb a Str.carriage_return then
        match rest with
        | String b rest' =>
            if Ascii.eqb b Str.newline then String Str.newline (universal_newlines rest')
            else String Str.newline (universal_newlines rest)
        | "" => String Str.newline ""
        end
      else String a (universal_newlines rest)
  end.

(** The lines of a text, each with its newline; the last may lack one. *)
Fixpoint split_lines (s : string) : list string :=
  match s with
  | "" => []
  | String a rest =>
      if Ascii.eqb a Str.newline then Str.nl :: split_lines rest
      else match split_lines rest with
           | [] => [String a ""]
           | line :: lines => String a line :: lines
           end
  end.

(** [f.readlines()] on a file opened in text mode *)
Definition readlines (content : list byte) : list string :=
  split_lines (universal_newlines (utf8_decode content)).

(** [bytes.decode('utf-8')] with the default [errors='strict'] raises
    [UnicodeDecodeError] where [errors='replace'] would put U+FFFD: the
    bytes decode exactly when every sequence is well formed. *)
Fixpoint utf8_valid (bs : list byte) : bool :=
  match bs with
  | [] => true
  | b0 :: r0 =>
      if byte_in 0 127 b0 then utf8_valid r0
      else if byte_in 194 223 b0 then
        match r0 with
        | b1 :: r1 => byte_in 128 191 b1 && utf8_valid r1
        | [] => false
        end
      else if byte_in 224 239 b0 then
        match r0 with
        | b1 :: b2 :: r2 =>
            second_byte_ok b0 b1 && byte_in 128 191 b2 && utf8_valid r2
        | _ => false
        end
      else if byte_in 240 244 b0 then
        match r0 with
        | b1 :: b2 :: b3 :: r3 =>
            second_byte_ok b0 b1 && byte_in 128 191 b2 && byte_in 128 191 b3
            && utf8_valid r3
        | _ => false
        end
      else false
  end.

(** [f.readlines()] on a file opened with [open(path, 'r',
    encoding='utf-8')]: [None] when the bytes do not decode. *)
Definition readlines_strict (content : list byte) : option (list string) :=
  if utf8_valid content
  then Some (split_lines (universal_newlines (string_of_list_byte content)))
  else None.

(** ** The pattern set of a run *)

(** [.gitignore] as [load_gitignore] finds it: [None] when
    [os.path.exists('.gitignore')] is false, else what opening it with
    [open('.gitignore', 'r', encoding='utf-8')] and reading it does, which
    raises (a directory, no permission, an I/O error) or gives the bytes
    of the file. *)
Definition Gitignore : Type := option (outcome (list byte)).

(** [load_gitignore()].  The result is [None] when an exception leaves the
    function: [open] raises, the bytes do not decode, or [from_lines]
    rejects a line; no [try] is around any of them. *)
Definition load_gitignore (gitignore : Gitignore) : Console.M (option PathSpec.t) :=
  gitignore_spec <-
    match gitignore with
    | Some (Returns content) =>
        match readlines_strict content with
        | Some gitignore_lines =>
            (match gitignore_lines with
             | [] => print_warning "Alert: .gitignore is empty."
             | _ => Console.ret tt
             end) ;;
            Console.ret (PathSpec.from_lines gitignore_lines)
        | None => Console.ret None
        end
    | Some (Raises _) => Console.ret None
    | None =>
        print_warning "Alert: .gitignore file not found. Using default ignore patterns." ;;
        Console.ret (PathSpec.from_lines [])
    end ;;
  match gitignore_spec with
  | None => Console.ret None
  | Some gitignore_spec =>
      match PathSpec.from_lines default_ignore_patterns with
      | None => Console.ret None
      | Some default_spec => Console.ret (Some (PathSpec.add gitignore_spec default_spec))
      end
  end.

(** ** The document *)

(** [is_binary_file(file_path)] *)
Definition is_binary_file (w : World) (file_path : string) : bool :=
  match binary_open (w file_path) with
  | Returns content =>
      let chunk := firstn 1024 content in
      if existsb (Byte.eqb x00) chunk then true else false
  | Raises _ => true
  end.

(** The body of the loop of [build_final_string].  The [try] holds the
    read and the two prints that follow it: what the block has appended to
    [output] when an exception leaves it stays appended, and the handler
    adds its message behind. *)
Definition file_step (stdout : Console.Stdout) (w : World) (output : list string)
           (file : string) : Console.M (list string) :=
  print_header file ;;
  print_code_block_indicator ;;
  let header := "### File: " ++ file ++ Str.nl ++ "### Code block below:" ++ Str.nl in
  let output := (output ++ [header])%list in
  output <-
    (if is_binary_file w file then
       let message := "(Binary file omitted)" in
       print_warning message ;;
       Console.ret (output ++ [(message ++ Str.nl)%string])%list
     else
       tried <-
         match text_open (w file) with
         | Returns content =>
             let lines := readlines content in
             match lines with
             | [] =>
                 let message := "(Empty file)" in
                 printed <- try_print_warning stdout message ;;
                 match printed with
                 | Returns _ =>
                     Console.ret ((output ++ [(message ++ Str.nl)%string])%list,
                                  Returns tt)
                 | Raises e => Console.ret (output, Raises e)
                 end
             | _ =>
                 let truncated_content :=
                   Str.rstrip_nl (Str.join "" (firstn 20 lines)) in
                 let output := (output ++ [(Str.join "" lines ++ Str.nl)%string])%list in
                 printed <- print_truncated_content stdout truncated_content ;;
                 Console.ret (output, printed)
             end
         | Raises e => Console.ret (output, Raises e)
         end ;;
       match tried with
       | (output, Returns _) => Console.ret output
       | (output, Raises e) =>
           let message := "(Could not read file: " ++ e ++ ")" in
           print_error message ;;
           Console.ret (output ++ [(message ++ Str.nl)%string])%list
       end) ;;
  Console.print "" ;;
  Console.ret output.

Fixpoint for_each_file (stdout : Console.Stdout) (w : World) (files : list string)
         (output : list string) : Console.M (list string) :=
  match files with
  | [] => Console.ret output
  | file :: rest =>
      output <- file_step stdout w output file ;;
      for_each_file stdout w rest output
  end.

(** [build_final_string(tree, files)] *)
Definition build_final_string (stdout : Console.Stdout) (w : World) (tree : string)
           (files : list string) : Console.M string :=
  let output := ["Project Tree:"; tree; ""] in
  output <- for_each_file stdout w files output ;;
  Console.ret (Str.join Str.nl output).

(** The core of [main()]: the matcher, the tree, the file list and the
    document that goes to the clipboard and to the output file; [None] when
    [load_gitignore] raises. *)
Definition main (stdout : Console.Stdout) (cwd : string) (gitignore : Gitignore)
           (fs : Dir) (w : World) : Console.M (option string) :=
  spec <- load_gitignore gitignore ;;
  match spec with
  | None => Console.ret None
  | Some spec =>
      let tree := build_project_tree cwd spec fs in
      let files := collect_files cwd spec fs in
      final_string <- build_final_string stdout w tree files ;;
      Console.ret (Some final_string)
  end.

(** ** The walk as the specification describes it

    One depth-first, pre-order pass over the tree that tracks the path of
    each directory as the list of its components, and the nesting depth as
    the length of that list. *)

(** A name of a directory entry: not empty, not [.] or [..], no separator. *)
Definition valid_name (n : string) : bool :=
  negb (n =? "") && negb (n =? ".") && negb (n =? "..")
  && (Str.count Str.slash n =? 0)%nat.

Fixpoint wf_dir (d : Dir) : bool :=
  match d with
  | MkDir files subdirs =>
      forallb valid_name files
      && forallb
           (fun entry : string * option Dir =>
              valid_name (fst entry)
              && match snd entry with
                 | Some sub => wf_dir sub
                 | None => true
                 end)
           subdirs
  end.

(** The relative path of the directory with the components [comps]. *)
Definition rel_of (comps : list string) : string :=
  match comps with
  | [] => "."
  | _ => Str.join "/" comps
  end.

(** The root [os.walk('.')] yields for that directory. *)
Definition top_of (comps : list string) : string := Str.join "/" ("." :: comps).

(** The directories the walk visits, in pre-order, each with its file names:
    a sub-directory whose relative path with a trailing separator matches is
    dropped before the descent. *)
Fixpoint visits (spec : PathSpec.t) (comps : list string) (d : Dir)
  : list (list string * list string) :=
  match d with
  | MkDir files subdirs =>
      (comps, files)
      :: flat_map
           (fun entry : string * option Dir =>
              if PathSpec.match_file spec (rel_of (comps ++ [fst entry])%list ++ "/")
              then []
              else match snd entry with
                   | Some sub => visits spec (comps ++ [fst entry])%list sub
                   | None => []
                   end)
           subdirs
  end.

(** The files of one directory that are listed: in lexicographic order,
    without those that match and without the ignore file. *)
Definition listed_files (spec : PathSpec.t) (comps : list string)
           (files : list string) : list string :=
  filter
    (fun file =>
       negb (PathSpec.match_file spec (rel_of (comps ++ [file])%list))
       && negb (file =? ".gitignore"))
    (sorted files).

Inductive entry : Type :=
| DirEntry (depth : nat) (name : string) (rel : string)
| FileEntry (depth : nat) (name : string) (rel : string).

Definition entry_rel (e : entry) : string :=
  match e with
  | DirEntry _ _ rel => rel
  | FileEntry _ _ rel => rel
  end.

(** A visited directory at its depth, immediately followed by its listed
    files; [depth] of a file is the depth of its directory. *)
Definition dir_entries (spec : PathSpec.t) (v : list string * list string)
  : list entry :=
  let (comps, files) := v in
  DirEntry (List.length comps) (last comps ".") (rel_of comps)
  :: map (fun file => FileEntry (List.length comps) file (rel_of (comps ++ [file])%list))
         (listed_files spec comps files).

Definition walk_entries (spec : PathSpec.t) (fs : Dir) : list entry :=
  flat_map (dir_entries spec) (visits spec [] fs).

Definition render_entry (e : entry) : string :=
  match e with
  | DirEntry depth name _ => Str.spaces (4 * depth) ++ name ++ "/"
  | FileEntry depth name _ => Str.spaces (4 * (depth + 1)) ++ name
  end.

Definition entry_files (entries : list entry) : list string :=
  flat_map (fun e => match e with
                     | FileEntry _ _ rel => [rel]
                     | DirEntry _ _ _ => []
                     end) entries.

(** ** Notions for the statements *)

Definition valid_names (comps : list string) : Prop :=
  Forall (fun n => valid_name n = true) comps.

(** A working directory as [os.getcwd()] returns it: absolute and
    normalised. *)
Definition valid_cwd (cwd : string) : Prop :=
  exists comps, valid_names comps /\ cwd = "/" ++ Str.join "/" comps.

(** The files of one walk item that are listed, by the program's test. *)
Definition item_files (cwd : string) (spec : PathSpec.t) (root : string)
           (files : list string) : list string :=
  filter (fun file =>
            file_included spec
              (Path.normpath (Path.join (Path.relpath cwd root ".") file)))
         (sorted files).

Definition item_level (cwd root : string) : nat :=
  if Path.relpath cwd root "." =? "." then 0
  else Str.count Str.slash (Path.relpath cwd root ".") + 1.

(** The lines one walk item adds to the tree. *)
Definition tree_item (cwd : string) (spec : PathSpec.t)
           (v : string * list string) : list string :=
  let (root, files) := v in
  (Str.spaces (4 * item_level cwd root)
     ++ (if negb (Path.relpath cwd root "." =? ".") then Path.basename root else ".")
     ++ "/")
  :: map (fun file => Str.spaces (4 * (item_level cwd root + 1)) ++ file)
         (item_files cwd spec root files).

(** The paths one walk item adds to the file list. *)
Definition collect_item (cwd : string) (spec : PathSpec.t)
           (v : string * list string) : list string :=
  let (root, files) := v in
  map (fun file => Path.normpath (Path.join (Path.relpath cwd root ".") file))
      (item_files cwd spec root files).

Definition item_view (item : walk_item) : string * list string :=
  (fst (fst item), snd item).

Definition visit_view (v : list string * list string) : string * list string :=
  (top_of (fst v), snd v).

(** No directory on the way down to [comps], [comps] included, matches. *)
Definition unpruned (spec : PathSpec.t) (comps : list string) : Prop :=
  forall pre suf,
    pre <> [] -> comps = (pre ++ suf)%list ->
    PathSpec.match_file spec (rel_of pre ++ "/") = false.

Definition le_string (a b : string) : Prop := String.leb a b = true.

(** No pattern of the spec is a negation. *)
Definition never_negates (spec : PathSpec.t) : bool :=
  forallb (fun p => match PathSpec.include p with Some false => false | _ => true end) spec.

Definition default_spec : PathSpec.t :=
  match PathSpec.from_lines default_ignore_patterns with
  | Some spec => spec
  | None => []
  end.

Definition some_includes (spec : PathSpec.t) (file : string) : bool :=
  existsb (fun p => match PathSpec.include p with
                    | Some true => PathSpec.pattern_matches p file
                    | _ => false
                    end) spec.

Definition file_header (file : string) : string :=
  "### File: " ++ file ++ Str.nl ++ "### Code block below:" ++ Str.nl.

(** What the loop body adds to [output] for one file. *)
Definition file_section (stdout : Console.Stdout) (w : World) (file : string)
  : list string :=
  fst (file_step stdout w [] file []).

(** The text that [print_truncated_content] hands to [print]. *)
Definition preview_text (preview : string) : string :=
  Colorama.WHITE ++ preview ++ "..." ++ Str.nl ++ Colorama.RESET_ALL.

(** What the handler of the [try] appends for the exception [e]. *)
Definition could_not_read (e : string) : string :=
  ("(Could not read file: " ++ e ++ ")") ++ Str.nl.

(** The lines that [load_gitignore] compiles as the user's list: those of
    [.gitignore], none when there is no [.gitignore]; [None] when the file
    cannot be opened or decoded. *)
Definition user_lines (gitignore : Gitignore) : option (list string) :=
  match gitignore with
  | Some (Returns content) => readlines_strict content
  | Some (Raises _) => None
  | None => Some []
  end.

(** A byte other than a carriage return. *)
Definition not_cr (b : byte) : bool := negb (Byte.eqb b x0d).

(** A line holds at most one newline, and holds it at its end. *)
Definition line_shape (line : string) : Prop :=
  exists body, Str.count Str.newline body = 0
               /\ (line = body ++ Str.nl \/ line = body).

Definition document_head (tree : string) : list string :=
  ["Project Tree:"; tree; ""].

(** ** Sample data *)

Definition bytes_of (s : string) : list byte := list_byte_of_string s.

Definition sample_gitignore : list string :=
  ["build/" ++ Str.nl; "!build/keep.txt" ++ Str.nl; "*.log" ++ Str.nl;
   "out/" ++ Str.nl; "!out/keep.txt" ++ Str.nl].

(** [.gitignore] with these lines. *)
Definition gitignore_of (lines : list string) : Gitignore :=
  Some (Returns (bytes_of (Str.join "" lines))).

Definition sample_spec : PathSpec.t :=
  match fst (load_gitignore (gitignore_of sample_gitignore) []) with
  | Some spec => spec
  | None => []
  end.

Definition sample_fs : Dir :=
  MkDir ["b.txt"; ".gitignore"; "a.txt"; "x.log"]
    [ ("src", Some (MkDir ["main.py"; "main.pyc"; ".gitignore"]
                      [ ("util", Some (MkDir ["z.py"; "a.py"] []));
                        ("__pycache__", Some (MkDir ["m.pyc"] [])) ]));
      ("build", Some (MkDir ["keep.txt"; "out.o"] []));
      ("out", Some (MkDir ["keep.txt"] [("deep", Some (MkDir ["keep.txt"] []))]));
      ("link", None);
      ("docs", Some (MkDir [] [])) ].

(** A text of 25 lines, [a] to [y]. *)
Definition sample_long_text : string :=
  Str.join ""
    (map (fun c => String c Str.nl)
         (list_ascii_of_string "abcdefghijklmnopqrstuvwxy")).

Definition sample_world : World :=
  fun p =>
    if p =? "a.txt" then regular (bytes_of ("hello" ++ Str.nl))
    else if p =? "b.bin" then regular [x68; x00; x69]
    else if p =? "empty" then regular []
    else if p =? "newline" then regular [x0a]
    else if p =? "long.txt" then regular (bytes_of sample_long_text)
    else if p =? "cafe.txt" then regular [x63; x61; x66; xc3; xa9; x0a]
    else if p =? "gone" then
      mkFileState (Returns [x68; x69])
                  (Raises "[Errno 2] No such file or directory: 'gone'")
    else unreadable "[Errno 13] Permission denied: 'locked'".

Definition sample_cwd : string := "/home/user/project".

(** A console whose encoding has every character. *)
Definition utf8_stdout : Console.Stdout := fun _ => None.

(** A console of encoding ASCII: the message is that of Python's
    [UnicodeEncodeError] for U+00E9 as the ninth character of a text, where
    the preview of [cafe.txt] has it. *)
Definition ascii_stdout : Console.Stdout :=
  fun _ => Some ("'ascii' codec can't encode character '\xe9' in position 8: "
                   ++ "ordinal not in range(128)").

(** The scenario of the specification: [a.txt], [b.bin], an empty directory
    [c] and a [.gitignore] that names [b.bin]. *)
Definition scenario_fs : Dir :=
  MkDir ["b.bin"; ".gitignore"; "a.txt"] [("c", Some (MkDir [] []))].

(** ** The sinks and the whole of [main()] *)

(** What the program finds at a root directory once [os.chdir] has moved
    there. *)
Record Project : Type := mkProject {
  project_cwd : string;
  project_tree : Dir;
  project_gitignore : Gitignore;
  project_files : World
}.

(** The surroundings of a run: the console, which paths are directories,
    what [pyperclip.copy(content)] and writing [content] to the file at
    [output_path] do, and the elapsed time as [main()] formats it. *)
Record Env : Type := mkEnv {
  stdout : Console.Stdout;
  isdir : string -> option Project;
  clipboard_copy : string -> outcome unit;
  file_write : string -> string -> outcome unit;
  elapsed : string
}.

(** The clipboard and the files written so far. *)
Record Sinks : Type := mkSinks {
  clipboard : option string;
  written : list (string * string)
}.

(** The parsed arguments: [root_dir] (default [.]) and [--output]. *)
Record Args : Type := mkArgs {
  root_dir : string;
  output : option string
}.

(** How [main()] ends: it returns, it leaves through [sys.exit(code)], or
    the exception of [load_gitignore] goes up uncaught. *)
Inductive ending : Type :=
| Completed
| SysExit (code : nat)
| Uncaught.

(** [copy_to_clipboard(content)] *)
Definition copy_to_clipboard (env : Env) (content : string) (s : Sinks)
  : Console.M Sinks :=
  match clipboard_copy env content with
  | Returns _ =>
      print_info "The repository has been successfully copied to the clipboard." ;;
      Console.ret (mkSinks (Some content) (written s))
  | Raises e =>
      print_error ("Error copying to clipboard: " ++ e) ;;
      Console.ret s
  end.

(** [write_output_file(content, output_path)] *)
Definition write_output_file (env : Env) (content output_path : string) (s : Sinks)
  : Console.M Sinks :=
  match file_write env output_path content with
  | Returns _ =>
      print_info ("The repository has been written to '" ++ output_path ++ "'.") ;;
      Console.ret (mkSinks (clipboard s) (written s ++ [(output_path, content)])%list)
  | Raises e =>
      print_error ("Error writing to output file: " ++ e) ;;
      Console.ret s
  end.

(** [main()], from the parsed arguments on. *)
Definition main_cli (env : Env) (args : Args) (s : Sinks)
  : Console.M (ending * Sinks) :=
  match isdir env (root_dir args) with
  | None =>
      print_error ("The specified root directory '" ++ root_dir args
                     ++ "' does not exist or is not a directory.") ;;
      Console.ret (SysExit 1, s)
  | Some project =>
      spec <- load_gitignore (project_gitignore project) ;;
      match spec with
      | None => Console.ret (Uncaught, s)
      | Some spec =>
          let tree := build_project_tree (project_cwd project) spec
                                         (project_tree project) in
          let files := collect_files (project_cwd project) spec
                                     (project_tree project) in
          final_string <- build_final_string (stdout env) (project_files project)
                                             tree files ;;
          s <- copy_to_clipboard env final_string s ;;
          s <- match output args with
               | Some output_path =>
                   if output_path =? "" then Console.ret s
                   else write_output_file env final_string output_path s
               | None => Console.ret s
               end ;;
          print_info ("Operation completed in " ++ elapsed env ++ " seconds.") ;;
          Console.ret (Completed, s)
      end
  end.

(** ** More notions for the statements *)

(** The names of a list are pairwise distinct. *)
Fixpoint distinct (names : list string) : bool :=
  match names with
  | [] => true
  | n :: rest => negb (existsb (String.eqb n) rest) && distinct rest
  end.

(** No directory of the tree holds two files or two sub-directories of one
    name. *)
Fixpoint distinct_names (d : Dir) : bool :=
  match d with
  | MkDir files subdirs =>
      distinct files && distinct (map fst subdirs)
      && forallb
           (fun entry : string * option Dir =>
              match snd entry with
              | Some sub => distinct_names sub
              | None => true
              end)
           subdirs
  end.

(** A name without a newline. *)
Definition plain_name (n : string) : bool := (Str.count Str.newline n =? 0)%nat.

(** No name of the tree holds a newline. *)
Fixpoint plain_names (d : Dir) : bool :=
  match d with
  | MkDir files subdirs =>
      forallb plain_name files
      && forallb
           (fun entry : string * option Dir =>
              plain_name (fst entry)
              && match snd entry with
                 | Some sub => plain_names sub
                 | None => true
                 end)
           subdirs
  end.

(** [target] is the directory reached from [d] through the sub-directories
    named by [comps]. *)
Inductive subdir_at : Dir -> list string -> Dir -> Prop :=
| subdir_here (d : Dir) : subdir_at d [] d
| subdir_below (files : list string) (subdirs : list (string * option Dir))
               (name : string) (sub : Dir) (comps : list string) (target : Dir) :
    In (name, Some sub) subdirs ->
    subdir_at sub comps target ->
    subdir_at (MkDir files subdirs) (name :: comps) target.

(** A line of [.gitignore] that is blank or a comment. *)
Definition comment_or_blank (line : string) : bool :=
  negb (Str.endswith "\ " line)
  && (Str.startswith "#" (Str.strip line) || (Str.strip line =? "")).

Definition sample_project : Project :=
  mkProject sample_cwd sample_fs (gitignore_of sample_gitignore) sample_world.

(** The outcome of a sample run: a clipboard that takes the text and an
    output file that cannot be written. *)
Definition sample_env : Env :=
  mkEnv utf8_stdout (fun root => if root =? "." then Some sample_project else None)
        (fun _ => Returns tt)
        (fun _ _ => Raises "[Errno 13] Permission denied: 'out.txt'")
        "0.01".

(** A run in which both sinks work. *)
Definition working_env : Env :=
  mkEnv utf8_stdout (isdir sample_env) (fun _ => Returns tt) (fun _ _ => Returns tt)
        "0.01".


Definition no_sinks : Sinks := mkSinks None [].

(** A project whose [.gitignore] holds a line that does not compile. *)
Definition broken_project : Project :=
  mkProject sample_cwd sample_fs (gitignore_of ["!"]) sample_world.

Definition broken_env : Env :=
  mkEnv utf8_stdout (fun _ => Some broken_project)
        (fun _ => Returns tt) (fun _ _ => Returns tt) "0.01".

(** The document of a project under a matcher, on a console. *)
Definition project_document (stdout : Console.Stdout) (project : Project)
           (spec : PathSpec.t) : string :=
  fst (build_final_string
         stdout (project_files project)
         (build_project_tree (project_cwd project) spec (project_tree project))
         (collect_files (project_cwd project) spec (project_tree project))
         []).

(** * Properties *)

(** ** Strings *)

Section StringFacts.

Lemma append_nil_r (s : string) : s ++ "" = s.
Proof. induction s; simpl; congruence. Qed.

Lemma append_assoc (a b c : string) : (a ++ b) ++ c = a ++ (b ++ c).
Proof. induction a; simpl; congruence. Qed.

Lemma join_cons (sep x : string) (xs : list string) :
  xs <> [] -> Str.join sep (x :: xs) = x ++ sep ++ Str.join sep xs.
Proof. intros H. destruct xs; [congruence | reflexivity]. Qed.

Lemma join_snoc (sep x : string) (xs : list string) :
  xs <> [] -> Str.join sep (xs ++ [x])%list = Str.join sep xs ++ sep ++ x.
Proof.
  induction xs as [|y ys IH]; [congruence|]. intros _.
  destruct ys as [|z zs]; [reflexivity|].
  change ((y :: z :: zs) ++ [x])%list with (y :: ((z :: zs) ++ [x]))%list.
  rewrite join_cons by (simpl; discriminate).
  rewrite IH by discriminate.
  rewrite (join_cons sep y (z :: zs)) by discriminate.
  now rewrite !append_assoc.
Qed.

Lemma count_app (c : ascii) (a b : string) :
  Str.count c (a ++ b) = Str.count c a + Str.count c b.
Proof. induction a; simpl; lia. Qed.

Lemma split_no_sep (c : ascii) (s : string) :
  Str.count c s = 0 -> Str.split c s = [s].
Proof.
  induction s as [|a s IH]; simpl; [reflexivity|].
  destruct (Ascii.eqb a c); simpl; [discriminate|].
  intros H. now rewrite IH.
Qed.

Lemma split_app_sep (c : ascii) (a b : string) :
  Str.count c a = 0 ->
  Str.split c (a ++ String c b) = a :: Str.split c b.
Proof.
  induction a as [|x a IH]; simpl.
  - now rewrite Ascii.eqb_refl.
  - destruct (Ascii.eqb x c); simpl; [discriminate|].
    intros H. now rewrite IH.
Qed.

Lemma split_join (comps : list string) :
  Forall (fun n => Str.count Str.slash n = 0) comps ->
  comps <> [] ->
  Str.split Str.slash (Str.join "/" comps) = comps.
Proof.
  induction 1 as [|x xs Hx Hxs IH]; [congruence|]. intros _.
  destruct xs as [|y ys].
  - simpl. now apply split_no_sep.
  - rewrite join_cons by discriminate.
    change ("/" ++ Str.join "/" (y :: ys)) with (String Str.slash (Str.join "/" (y :: ys))).
    rewrite split_app_sep by assumption.
    now rewrite IH.
Qed.

Lemma count_join (comps : list string) :
  Forall (fun n => Str.count Str.slash n = 0) comps ->
  Str.count Str.slash (Str.join "/" comps) = List.length comps - 1.
Proof.
  induction 1 as [|x xs Hx Hxs IH]; [reflexivity|].
  destruct xs as [|y ys].
  - simpl. lia.
  - rewrite join_cons by discriminate.
    rewrite count_app, Hx.
    change ("/" ++ Str.join "/" (y :: ys)) with (String Str.slash (Str.join "/" (y :: ys))).
    cbn [Str.count]. rewrite Ascii.eqb_refl, IH. simpl. lia.
Qed.

End StringFacts.

(** ** Paths of valid names *)

Section PathFacts.

Lemma valid_name_inv (n : string) :
  valid_name n = true ->
  n <> "" /\ n <> "." /\ n <> ".." /\ Str.count Str.slash n = 0.
Proof.
  unfold valid_name. rewrite !andb_true_iff, !negb_true_iff, !String.eqb_neq.
  rewrite Nat.eqb_eq. tauto.
Qed.

Lemma valid_names_no_slash (comps : list string) :
  valid_names comps -> Forall (fun n => Str.count Str.slash n = 0) comps.
Proof.
  intros H. eapply Forall_impl; [|exact H].
  intros n Hn. now apply valid_name_inv in Hn.
Qed.

Lemma valid_names_snoc (comps : list string) (n : string) :
  valid_names comps -> valid_name n = true -> valid_names (comps ++ [n]).
Proof.
  intros H Hn. apply Forall_app. split; [exact H|]. now constructor.
Qed.

Lemma startswith_slash_valid (n : string) :
  valid_name n = true -> Str.startswith "/" n = false.
Proof.
  intros H. apply valid_name_inv in H as (Hne & _ & _ & Hc).
  destruct n as [|a n]; [congruence|].
  simpl in Hc. cbn [Str.startswith]. rewrite Ascii.eqb_sym.
  unfold Str.slash in Hc.
  destruct (Ascii.eqb a "/"); [discriminate|reflexivity].
Qed.

Lemma endswith_slash_count (s : string) :
  Str.endswith "/" s = true -> 0 < Str.count Str.slash s.
Proof.
  induction s as [|a s IH]; simpl; [discriminate|].
  rewrite orb_true_iff. intros [H|H].
  - destruct (Ascii.eqb_spec a "/") as [->|Hneq]; [simpl; lia|].
    destruct s; discriminate.
  - apply IH in H. lia.
Qed.

Lemma endswith_slash_app (a n : string) :
  n <> "" -> Str.count Str.slash n = 0 -> Str.endswith "/" (a ++ n) = false.
Proof.
  intros Hne Hc. induction a as [|x a IH]; simpl.
  - destruct (Str.endswith "/" n) eqn:E; [|reflexivity].
    apply endswith_slash_count in E. lia.
  - change (Str.endswith "/" (String x (a ++ n)))
      with ((String x (a ++ n) =? "/") || Str.endswith "/" (a ++ n)).
    rewrite IH, orb_false_r. simpl.
    destruct (Ascii.eqb x "/"); [|reflexivity].
    apply String.eqb_neq. destruct a; simpl; [exact Hne | discriminate].
Qed.

Lemma top_of_snoc (comps : list string) (n : string) :
  top_of (comps ++ [n]) = top_of comps ++ "/" ++ n.
Proof.
  unfold top_of. change ("." :: comps ++ [n])%list with (("." :: comps) ++ [n])%list.
  now rewrite join_snoc by discriminate.
Qed.

Lemma top_of_head (comps : list string) : exists s, top_of comps = String "." s.
Proof.
  unfold top_of. destruct comps; [now exists ""|].
  rewrite join_cons by discriminate. simpl. eauto.
Qed.

Lemma endswith_slash_top (comps : list string) :
  valid_names comps -> Str.endswith "/" (top_of comps) = false.
Proof.
  intros H. induction comps as [|c cs _] using rev_ind; [reflexivity|].
  rewrite top_of_snoc. apply Forall_app in H as [_ H]. inversion H as [|? ? Hn _]; subst.
  apply valid_name_inv in Hn as (Hne & _ & _ & Hc).
  rewrite <- append_assoc. now apply endswith_slash_app.
Qed.

Lemma endswith_slash_join (comps : list string) :
  valid_names comps -> Str.endswith "/" (Str.join "/" comps) = false.
Proof.
  intros H. induction comps as [|c cs _] using rev_ind; [reflexivity|].
  apply Forall_app in H as [_ H]. inversion H as [|? ? Hn _]; subst.
  apply valid_name_inv in Hn as (Hne & _ & _ & Hc).
  destruct cs as [|c' cs'].
  - now apply (endswith_slash_app "").
  - rewrite join_snoc by discriminate.
    rewrite <- append_assoc. now apply endswith_slash_app.
Qed.

Lemma join_top_of (comps : list string) (n : string) :
  valid_names comps -> valid_name n = true ->
  Path.join (top_of comps) n = top_of (comps ++ [n]).
Proof.
  intros H Hn. unfold Path.join.
  rewrite startswith_slash_valid by assumption.
  rewrite endswith_slash_top by assumption.
  destruct (top_of_head comps) as [s E].
  rewrite top_of_snoc. rewrite E. reflexivity.
Qed.

Lemma norm_comps_valid (b : bool) (comps acc : list string) :
  valid_names comps ->
  Path.norm_comps b acc comps = (rev acc ++ comps)%list.
Proof.
  intros H. revert acc. induction H as [|n comps Hn _ IH]; intros acc; simpl.
  - now rewrite app_nil_r.
  - apply valid_name_inv in Hn as (H1 & H2 & H3 & _).
    apply String.eqb_neq in H1, H2, H3. rewrite H1, H2, H3. simpl.
    rewrite IH. simpl. now rewrite <- app_assoc.
Qed.

Lemma join_valid_nonempty (comps : list string) :
  valid_names comps -> comps <> [] ->
  exists a s, Str.join "/" comps = String a s /\ a <> "/"%char.
Proof.
  intros H Hne. destruct comps as [|c cs]; [congruence|].
  inversion H as [|? ? Hc _]; subst.
  pose proof (startswith_slash_valid _ Hc) as Hs.
  apply valid_name_inv in Hc as (Hc & _).
  destruct c as [|a c]; [congruence|].
  exists a. cbn [Str.startswith] in Hs.
  destruct (Ascii.eqb_spec "/" a) as [<-|Hneq]; [discriminate|].
  destruct cs.
  - exists c. split; [reflexivity|congruence].
  - rewrite join_cons by discriminate. simpl. eexists. split; [reflexivity|congruence].
Qed.

(** [normpath] leaves a path of valid components as it is. *)
Lemma normpath_join_valid (comps : list string) :
  valid_names comps -> comps <> [] ->
  Path.normpath (Str.join "/" comps) = Str.join "/" comps.
Proof.
  intros H Hne.
  destruct (join_valid_nonempty comps H Hne) as (a & s & E & Ha).
  unfold Path.normpath.
  rewrite split_join by (auto using valid_names_no_slash).
  rewrite norm_comps_valid by assumption. simpl rev. simpl app.
  rewrite E. cbn [String.eqb Str.startswith].
  destruct (Ascii.eqb_spec "/" a) as [Heq|_]; [now symmetry in Heq|].
  reflexivity.
Qed.

Lemma normpath_top_of (comps : list string) :
  valid_names comps -> Path.normpath (top_of comps) = rel_of comps.
Proof.
  intros H. unfold Path.normpath.
  destruct (top_of_head comps) as [s E].
  assert (Hsplit : Str.split Str.slash (top_of comps) = "." :: comps).
  { unfold top_of. apply split_join; [|discriminate].
    constructor; [reflexivity|]. now apply valid_names_no_slash. }
  rewrite Hsplit. rewrite E. cbn [String.eqb Str.startswith Ascii.eqb Bool.eqb andb].
  cbn [Path.norm_comps String.eqb Ascii.eqb Bool.eqb orb].
  rewrite norm_comps_valid by assumption. simpl rev. simpl app.
  destruct comps as [|c cs]; [reflexivity|].
  destruct (join_valid_nonempty (c :: cs) H) as (a & s' & E' & _); [discriminate|].
  unfold rel_of. rewrite E'. reflexivity.
Qed.

Lemma rel_of_snoc (comps : list string) (n : string) :
  valid_names comps -> valid_name n = true ->
  Path.normpath (Path.join (rel_of comps) n) = rel_of (comps ++ [n]).
Proof.
  intros H Hn.
  assert (Hall : valid_names (comps ++ [n])) by now apply valid_names_snoc.
  destruct comps as [|c cs].
  - change (rel_of []) with (top_of []).
    rewrite join_top_of by assumption.
    exact (normpath_top_of _ Hall).
  - assert (Hrel : rel_of ((c :: cs) ++ [n]) = Str.join "/" ((c :: cs) ++ [n])) by reflexivity.
    rewrite Hrel. rewrite <- normpath_join_valid by (assumption || discriminate).
    f_equal. unfold rel_of, Path.join.
    rewrite startswith_slash_valid by assumption.
    destruct (join_valid_nonempty (c :: cs) H) as (a & s' & E' & _); [discriminate|].
    rewrite join_snoc by discriminate.
    pose proof (endswith_slash_join _ H) as Hend.
    rewrite Hend. rewrite E' at 1. reflexivity.
Qed.

Lemma rel_of_not_dot (comps : list string) :
  valid_names comps -> comps <> [] -> (rel_of comps =? ".") = false.
Proof.
  intros H Hne. apply String.eqb_neq. intros E.
  pose proof (count_join comps (valid_names_no_slash _ H)) as Hc.
  destruct comps as [|c cs]; [congruence|].
  unfold rel_of in E. rewrite E in Hc. simpl in Hc.
  destruct cs as [|c' cs']; [|simpl in Hc; lia].
  simpl in E. inversion H as [|? ? Hv _]; subst.
  now apply valid_name_inv in Hv as (_ & Hd & _).
Qed.

Lemma level_of (comps : list string) :
  valid_names comps -> comps <> [] ->
  Str.count Str.slash (rel_of comps) + 1 = List.length comps.
Proof.
  intros H Hne. destruct comps as [|c cs]; [congruence|].
  unfold rel_of. rewrite count_join by now apply valid_names_no_slash.
  simpl. lia.
Qed.

Lemma last_cons_default (x d : string) (l : list string) :
  last (x :: l) d = last l x.
Proof.
  revert x d. induction l as [|y l IH]; intros x d; [reflexivity|].
  rewrite (IH y x). change (last (x :: y :: l) d) with (last (y :: l) d).
  apply IH.
Qed.

Lemma basename_top_of (comps : list string) :
  valid_names comps -> Path.basename (top_of comps) = last comps ".".
Proof.
  intros H. unfold Path.basename, top_of.
  rewrite split_join; [apply last_cons_default| |discriminate].
  constructor; [reflexivity|]. now apply valid_names_no_slash.
Qed.

Lemma name_rel_of (comps : list string) (file : string) :
  valid_names comps -> valid_name file = true ->
  Path.name (rel_of (comps ++ [file])) = file.
Proof.
  intros H Hf.
  assert (Hall : valid_names (comps ++ [file])) by now apply valid_names_snoc.
  assert (Hrel : rel_of (comps ++ [file]) = Str.join "/" (comps ++ [file])).
  { destruct comps; reflexivity. }
  unfold Path.name. rewrite Hrel.
  rewrite split_join;
    [| now apply valid_names_no_slash | now destruct comps].
  rewrite forallb_filter_id; [apply last_last|].
  apply forallb_forall. intros n Hn.
  unfold valid_names in Hall. rewrite Forall_forall in Hall.
  apply Hall, valid_name_inv in Hn as (H1 & H2 & _).
  apply String.eqb_neq in H1, H2. now rewrite H1, H2.
Qed.

End PathFacts.

(** ** [relpath] below the working directory *)

Section RelpathFacts.

Variable cwd : string.
Hypothesis cwd_valid : valid_cwd cwd.

Lemma join_app (sep : string) (xs ys : list string) :
  xs <> [] -> ys <> [] ->
  Str.join sep (xs ++ ys)%list = Str.join sep xs ++ sep ++ Str.join sep ys.
Proof.
  intros Hx Hy. induction xs as [|x xs IH]; [congruence|].
  destruct xs as [|x' xs'].
  - simpl app. now rewrite join_cons.
  - change ((x :: x' :: xs') ++ ys)%list with (x :: ((x' :: xs') ++ ys))%list.
    rewrite join_cons by discriminate. rewrite IH by discriminate.
    rewrite (join_cons sep x (x' :: xs')) by discriminate.
    now rewrite !append_assoc.
Qed.

Lemma norm_comps_app_valid (b : bool) (A rest acc : list string) :
  valid_names A ->
  Path.norm_comps b acc (A ++ rest)%list = Path.norm_comps b (rev A ++ acc)%list rest.
Proof.
  intros H. revert acc. induction H as [|n A Hn _ IH]; intros acc; [reflexivity|].
  apply valid_name_inv in Hn as (H1 & H2 & H3 & _).
  apply String.eqb_neq in H1, H2, H3.
  cbn [app Path.norm_comps]. rewrite H1, H2, H3. cbn [orb negb].
  rewrite IH. cbn [rev]. now rewrite <- app_assoc.
Qed.

(** An absolute path of valid components with one [.] among them. *)
Lemma normpath_absolute (A B : list string) :
  valid_names A -> valid_names B ->
  Path.normpath ("/" ++ Str.join "/" (A ++ "." :: B))
  = "/" ++ Str.join "/" (A ++ B).
Proof.
  intros HA HB. unfold Path.normpath.
  assert (Hparts : Forall (fun n => Str.count Str.slash n = 0) (A ++ "." :: B)).
  { apply Forall_app. split; [now apply valid_names_no_slash|].
    constructor; [reflexivity | now apply valid_names_no_slash]. }
  assert (Hsplit : Str.split Str.slash ("/" ++ Str.join "/" (A ++ "." :: B))
                   = "" :: (A ++ "." :: B)%list).
  { change ("/" ++ Str.join "/" (A ++ "." :: B))
      with ("" ++ String Str.slash (Str.join "/" (A ++ "." :: B))).
    rewrite split_app_sep by reflexivity.
    rewrite split_join; [reflexivity | exact Hparts | now destruct A]. }
  rewrite Hsplit. clear Hsplit.
  assert (Hhead : exists a s, Str.join "/" (A ++ "." :: B) = String a s /\ a <> "/"%char).
  { destruct A as [|c A'].
    - destruct B; [now exists "."%char, ""|].
      cbn [app]. rewrite join_cons by discriminate. exists "."%char. eexists.
      split; [reflexivity | discriminate].
    - inversion HA as [|? ? Hc _]; subst.
      pose proof (startswith_slash_valid _ Hc) as Hs.
      apply valid_name_inv in Hc as (Hc & _).
      destruct c as [|a c]; [congruence|]. cbn [Str.startswith] in Hs.
      exists a. cbn [app]. rewrite join_cons by now destruct A'.
      eexists. split; [reflexivity|].
      intros ->. discriminate. }
  destruct Hhead as (a & s & E & Ha). rewrite E.
  cbn [append String.eqb Str.startswith].
  change (Ascii.eqb "/" "/") with true.
  replace (Ascii.eqb "/" a) with false
    by (symmetry; apply Ascii.eqb_neq; congruence).
  cbn [andb negb append String.eqb].
  cbn [Path.norm_comps String.eqb orb].
  rewrite norm_comps_app_valid by assumption.
  cbn [Path.norm_comps String.eqb Ascii.eqb Bool.eqb orb andb].
  rewrite norm_comps_valid by assumption.
  rewrite app_nil_r, rev_involutive. reflexivity.
Qed.

Lemma abspath_top_of (cwd_comps comps : list string) :
  valid_names cwd_comps -> valid_names comps ->
  cwd = "/" ++ Str.join "/" cwd_comps ->
  Path.abspath cwd (top_of comps) = "/" ++ Str.join "/" (cwd_comps ++ comps).
Proof.
  intros Hc Hv ->. unfold Path.abspath.
  assert (Hs : Str.startswith "/" (top_of comps) = false).
  { destruct (top_of_head comps) as [s E]. now rewrite E. }
  rewrite Hs. rewrite <- normpath_absolute by assumption. f_equal.
  unfold Path.join. rewrite Hs. destruct cwd_comps as [|c cs].
  - reflexivity.
  - replace (Str.endswith "/" ("/" ++ Str.join "/" (c :: cs))) with false.
    + cbn [String.eqb append orb]. rewrite join_app by discriminate.
      reflexivity.
    + symmetry. destruct (@exists_last _ (c :: cs)) as (l & n & El); [discriminate|].
      rewrite El in *. apply Forall_app in Hc as [_ Hn].
      inversion Hn as [|? ? Hn' _]; subst.
      apply valid_name_inv in Hn' as (Hne & _ & _ & Hcount).
      destruct l as [|l0 l'].
      * now apply (endswith_slash_app "/").
      * rewrite join_snoc by discriminate.
        rewrite <- !append_assoc. now apply endswith_slash_app.
Qed.

Lemma parts_absolute (comps : list string) :
  valid_names comps -> Path.parts ("/" ++ Str.join "/" comps) = comps.
Proof.
  intros H. unfold Path.parts.
  change ("/" ++ Str.join "/" comps) with ("" ++ String Str.slash (Str.join "/" comps)).
  rewrite split_app_sep by reflexivity.
  destruct comps as [|c cs]; [reflexivity|].
  rewrite split_join by (now apply valid_names_no_slash || discriminate).
  remember (c :: cs) as l eqn:El. cbn [filter String.eqb negb]. clear El.
  apply forallb_filter_id, forallb_forall.
  intros n Hn. unfold valid_names in H. rewrite Forall_forall in H.
  apply H, valid_name_inv in Hn as (Hne & _).
  apply String.eqb_neq in Hne. now rewrite Hne.
Qed.

Lemma commonprefix_app (l r : list string) : Path.commonprefix l (l ++ r) = l.
Proof.
  induction l as [|x l IH]; [now destruct r|].
  cbn [app Path.commonprefix]. now rewrite String.eqb_refl, IH.
Qed.

Lemma fold_left_join (first : string) (rest : list string) :
  valid_names (first :: rest) ->
  fold_left Path.join rest first = Str.join "/" (first :: rest).
Proof.
  intros H. induction rest as [|n rest IH] using rev_ind; [reflexivity|].
  change (first :: rest ++ [n])%list with ((first :: rest) ++ [n])%list in *.
  apply Forall_app in H as [H Hn]. inversion Hn as [|? ? Hn' _]; subst.
  rewrite fold_left_app. cbn [fold_left]. rewrite IH by exact H.
  rewrite join_snoc by discriminate.
  unfold Path.join. rewrite startswith_slash_valid by assumption.
  rewrite endswith_slash_join by exact H.
  destruct (join_valid_nonempty (first :: rest) H) as (a & s & E & _); [discriminate|].
  rewrite E at 1. reflexivity.
Qed.

(** The root [os.walk] yields for a directory, made relative to the
    working directory. *)
Lemma relpath_top_of (comps : list string) :
  valid_names comps -> Path.relpath cwd (top_of comps) "." = rel_of comps.
Proof.
  intros H. destruct cwd_valid as (cwd_comps & Hc & E).
  unfold Path.relpath.
  pose proof (abspath_top_of cwd_comps [] Hc (Forall_nil _) E) as Hdot.
  rewrite app_nil_r in Hdot. change (top_of []) with "." in Hdot.
  rewrite Hdot, (abspath_top_of cwd_comps comps) by assumption.
  rewrite !parts_absolute by (assumption || now apply Forall_app).
  rewrite commonprefix_app, Nat.sub_diag. cbn [repeat app].
  rewrite skipn_app, skipn_all, Nat.sub_diag. cbn [skipn app].
  destruct comps as [|c cs]; [reflexivity|].
  now rewrite fold_left_join.
Qed.

End RelpathFacts.

(** ** Lists and loops *)

Section LoopFacts.

Context {A B : Type}.

(** A loop that appends to its accumulator builds a [flat_map]. *)
Lemma fold_left_append (step : list B -> A -> list B) (f : A -> list B) :
  (forall acc x, step acc x = (acc ++ f x)%list) ->
  forall l init, fold_left step l init = (init ++ flat_map f l)%list.
Proof.
  intros Hstep. induction l as [|x l IH]; intros init; simpl.
  - now rewrite app_nil_r.
  - rewrite Hstep, IH. now rewrite app_assoc.
Qed.

(** A loop that appends under a condition builds a filtered [map]. *)
Lemma fold_left_append_if (p : A -> bool) (g : A -> B) :
  forall l init,
    fold_left (fun acc x => if p x then (acc ++ [g x])%list else acc) l init
    = (init ++ map g (filter p l))%list.
Proof.
  induction l as [|x l IH]; intros init; simpl.
  - now rewrite app_nil_r.
  - rewrite IH. destruct (p x); [|reflexivity].
    simpl. now rewrite <- app_assoc.
Qed.

Lemma flat_map_map {C : Type} (f : B -> list C) (g : A -> B) (l : list A) :
  flat_map f (map g l) = flat_map (fun x => f (g x)) l.
Proof. induction l as [|x l IH]; simpl; [reflexivity | now rewrite IH]. Qed.

Lemma flat_map_ext_in (f g : A -> list B) (l : list A) :
  (forall x, In x l -> f x = g x) -> flat_map f l = flat_map g l.
Proof.
  induction l as [|x l IH]; intros H; simpl; [reflexivity|].
  rewrite H by now left. rewrite IH; [reflexivity|].
  intros y Hy. apply H. now right.
Qed.

End LoopFacts.

(** ** The walk *)

Section WalkFacts.

Variable cwd : string.
Hypothesis cwd_valid : valid_cwd cwd.
Variable spec : PathSpec.t.

(** Induction over a directory tree, with the property at hand for every
    sub-directory that has a tree. *)
Lemma Dir_nested_ind (P : Dir -> Prop) :
  (forall files subdirs,
      Forall (fun entry => forall sub, snd entry = Some sub -> P sub) subdirs ->
      P (MkDir files subdirs)) ->
  forall d, P d.
Proof.
  intros step. fix IH 1. intros [files subdirs]. apply step.
  induction subdirs as [|[n o] subdirs IHs]; constructor; [|exact IHs].
  destruct o as [sub'|]; intros sub E; simpl in E; [|discriminate].
  injection E as <-. apply IH.
Qed.

Lemma tree_step_item (tree : list string) (item : walk_item) :
  tree_step cwd spec tree item = (tree ++ tree_item cwd spec (item_view item))%list.
Proof.
  destruct item as [[root dirs] files]. unfold tree_step, tree_item, item_view.
  cbn [fst snd]. rewrite fold_left_append_if.
  rewrite <- app_assoc. reflexivity.
Qed.

Lemma collect_step_item (acc : list string) (item : walk_item) :
  collect_step cwd spec acc item = (acc ++ collect_item cwd spec (item_view item))%list.
Proof.
  destruct item as [[root dirs] files]. unfold collect_step, collect_item, item_view.
  cbn [fst snd].
  rewrite (fold_left_append_if
             (fun file => file_included spec
                            (Path.normpath (Path.join (Path.relpath cwd root ".") file)))
             (fun file => Path.normpath (Path.join (Path.relpath cwd root ".") file))).
  reflexivity.
Qed.

Lemma tree_lines_items (fs : Dir) :
  tree_lines cwd spec fs
  = flat_map (tree_item cwd spec) (map item_view (os_walk (keep_dir cwd spec) "." fs)).
Proof.
  unfold tree_lines.
  rewrite (fold_left_append _ _ tree_step_item). simpl.
  now rewrite flat_map_map.
Qed.

Lemma collect_files_items (fs : Dir) :
  collect_files cwd spec fs
  = flat_map (collect_item cwd spec) (map item_view (os_walk (keep_dir cwd spec) "." fs)).
Proof.
  unfold collect_files.
  rewrite (fold_left_append _ _ collect_step_item). simpl.
  now rewrite flat_map_map.
Qed.

Lemma wf_dir_inv (files : list string) (subdirs : list (string * option Dir)) :
  wf_dir (MkDir files subdirs) = true ->
  valid_names files
  /\ forall entry, In entry subdirs ->
                   valid_name (fst entry) = true
                   /\ forall sub, snd entry = Some sub -> wf_dir sub = true.
Proof.
  cbn [wf_dir]. rewrite andb_true_iff, !forallb_forall. intros [Hf Hs]. split.
  - apply Forall_forall. exact Hf.
  - intros entry Hin. apply Hs in Hin. apply andb_true_iff in Hin as [Hn Hsub].
    split; [exact Hn|]. intros sub E. now rewrite E in Hsub.
Qed.

Lemma map_flat_map {X Y Z : Type} (f : Y -> Z) (g : X -> list Y) (l : list X) :
  map f (flat_map g l) = flat_map (fun x => map f (g x)) l.
Proof.
  induction l as [|x l IH]; simpl; [reflexivity|].
  now rewrite map_app, IH.
Qed.

(** On a tree of valid names, [os.walk] with the program's pruning visits
    the directories of [visits], in the same order. *)
Lemma os_walk_visits (d : Dir) :
  forall comps,
    wf_dir d = true -> valid_names comps ->
    map item_view (os_walk (keep_dir cwd spec) (top_of comps) d)
    = map visit_view (visits spec comps d).
Proof.
  induction d as [files subdirs IH] using Dir_nested_ind.
  intros comps Hwf Hcomps. apply wf_dir_inv in Hwf as [_ Hsub].
  cbn [os_walk visits map]. f_equal.
  rewrite !map_flat_map. apply flat_map_ext_in. intros [n o] Hin.
  rewrite Forall_forall in IH. specialize (IH _ Hin).
  destruct (Hsub _ Hin) as [Hn Hwf]. cbn [fst snd] in *.
  unfold keep_dir. rewrite relpath_top_of, rel_of_snoc by assumption.
  destruct (PathSpec.match_file spec (rel_of (comps ++ [n]) ++ "/")); [reflexivity|].
  cbn [negb]. destruct o as [sub|]; [|reflexivity].
  rewrite join_top_of by assumption.
  apply IH; auto using valid_names_snoc.
Qed.

Lemma unpruned_nil : unpruned spec [].
Proof.
  intros pre suf Hne E. symmetry in E. apply app_eq_nil in E as [-> _]. congruence.
Qed.

Lemma unpruned_snoc (comps : list string) (n : string) :
  unpruned spec comps ->
  PathSpec.match_file spec (rel_of (comps ++ [n]) ++ "/") = false ->
  unpruned spec (comps ++ [n]).
Proof.
  intros H Hn pre suf Hne E.
  destruct suf as [|x suf _] using rev_ind.
  - rewrite app_nil_r in E. now subst pre.
  - rewrite app_assoc in E. apply app_inj_tail in E as [E _].
    exact (H pre suf Hne E).
Qed.

Lemma visits_inv (d : Dir) :
  forall comps,
    wf_dir d = true -> valid_names comps -> unpruned spec comps ->
    Forall (fun v => valid_names (fst v) /\ valid_names (snd v) /\ unpruned spec (fst v))
           (visits spec comps d).
Proof.
  induction d as [files subdirs IH] using Dir_nested_ind.
  intros comps Hwf Hcomps Hun. apply wf_dir_inv in Hwf as [Hfiles Hsub].
  cbn [visits]. constructor; [now cbn|].
  apply Forall_flat_map, Forall_forall. intros [n o] Hin.
  rewrite Forall_forall in IH. specialize (IH _ Hin).
  destruct (Hsub _ Hin) as [Hn Hwf]. cbn [fst snd] in *.
  destruct (PathSpec.match_file spec (rel_of (comps ++ [n]) ++ "/")) eqn:Hm;
    [constructor|].
  destruct o as [sub|]; [|constructor].
  apply IH; auto using valid_names_snoc, unpruned_snoc.
Qed.

Lemma sorted_valid (files : list string) :
  valid_names files -> valid_names (sorted files).
Proof.
  intros H. eapply Permutation_Forall; [|exact H].
  apply StringSort.Permuted_sort.
Qed.

Lemma item_files_listed (comps files : list string) :
  valid_names comps -> valid_names files ->
  item_files cwd spec (top_of comps) files = listed_files spec comps files.
Proof.
  intros Hc Hf. unfold item_files, listed_files.
  apply filter_ext_in. intros file Hin.
  pose proof (sorted_valid _ Hf) as Hs. unfold valid_names in Hs.
  rewrite Forall_forall in Hs. specialize (Hs _ Hin).
  unfold file_included.
  rewrite relpath_top_of, rel_of_snoc by assumption.
  now rewrite name_rel_of by assumption.
Qed.

Lemma item_level_depth (comps : list string) :
  valid_names comps -> item_level cwd (top_of comps) = List.length comps.
Proof.
  intros H. unfold item_level. rewrite relpath_top_of by assumption.
  destruct comps as [|c cs]; [reflexivity|].
  rewrite rel_of_not_dot by (assumption || discriminate).
  apply level_of; [assumption | discriminate].
Qed.

Lemma tree_item_entries (v : list string * list string) :
  valid_names (fst v) -> valid_names (snd v) ->
  tree_item cwd spec (visit_view v) = map render_entry (dir_entries spec v).
Proof.
  destruct v as [comps files]. cbn [fst snd]. intros Hc Hf.
  unfold tree_item, visit_view, dir_entries. cbn [fst snd map render_entry].
  rewrite item_level_depth, item_files_listed by assumption.
  rewrite map_map. cbn [render_entry]. f_equal.
  rewrite relpath_top_of by assumption.
  destruct comps as [|c cs]; [reflexivity|].
  rewrite rel_of_not_dot by (assumption || discriminate). cbn [negb].
  now rewrite basename_top_of by assumption.
Qed.

Lemma collect_item_entries (v : list string * list string) :
  valid_names (fst v) -> valid_names (snd v) ->
  collect_item cwd spec (visit_view v) = entry_files (dir_entries spec v).
Proof.
  destruct v as [comps files]. cbn [fst snd]. intros Hc Hf.
  unfold collect_item, visit_view, dir_entries. cbn [fst snd entry_files flat_map].
  rewrite item_files_listed by assumption.
  pose proof (sorted_valid _ Hf) as Hs.
  assert (Hl : valid_names (listed_files spec comps files)).
  { unfold listed_files, valid_names. apply Forall_forall. intros f Hin.
    apply filter_In in Hin as [Hin _].
    unfold valid_names in Hs. rewrite Forall_forall in Hs. auto. }
  simpl app. rewrite relpath_top_of by assumption.
  induction Hl as [|f fs Hv _ IH]; [reflexivity|].
  cbn [map flat_map app]. rewrite rel_of_snoc by assumption.
  f_equal. exact IH.
Qed.

Lemma entry_files_app (l1 l2 : list entry) :
  entry_files (l1 ++ l2) = (entry_files l1 ++ entry_files l2)%list.
Proof. apply flat_map_app. Qed.

Lemma entry_files_flat_map {X : Type} (g : X -> list entry) (l : list X) :
  entry_files (flat_map g l) = flat_map (fun x => entry_files (g x)) l.
Proof.
  induction l as [|x l IH]; simpl; [reflexivity|].
  now rewrite entry_files_app, IH.
Qed.

(** The lines of the tree are the rendered entries of the specified walk. *)
Lemma tree_lines_entries (fs : Dir) :
  wf_dir fs = true ->
  tree_lines cwd spec fs = map render_entry (walk_entries spec fs).
Proof.
  intros Hwf. rewrite tree_lines_items.
  change "." with (top_of []) at 1.
  rewrite os_walk_visits by (assumption || constructor).
  unfold walk_entries. rewrite flat_map_map, map_flat_map.
  apply flat_map_ext_in. intros v Hin.
  pose proof (visits_inv fs [] Hwf (Forall_nil _) unpruned_nil) as Hinv.
  rewrite Forall_forall in Hinv. destruct (Hinv _ Hin) as (H1 & H2 & _).
  now apply tree_item_entries.
Qed.

(** The file list is the file entries of the same walk. *)
Lemma collect_files_entries (fs : Dir) :
  wf_dir fs = true ->
  collect_files cwd spec fs = entry_files (walk_entries spec fs).
Proof.
  intros Hwf. rewrite collect_files_items.
  change "." with (top_of []) at 1.
  rewrite os_walk_visits by (assumption || constructor).
  unfold walk_entries. rewrite flat_map_map, entry_files_flat_map.
  apply flat_map_ext_in. intros v Hin.
  pose proof (visits_inv fs [] Hwf (Forall_nil _) unpruned_nil) as Hinv.
  rewrite Forall_forall in Hinv. destruct (Hinv _ Hin) as (H1 & H2 & _).
  now apply collect_item_entries.
Qed.

End WalkFacts.

(** ** Sorting *)

Section SortFacts.

Lemma leb_trans (a b c : string) :
  String.leb a b = true -> String.leb b c = true -> String.leb a c = true.
Proof.
  revert b c. induction a as [|x a IH]; intros [|y b] [|z c];
    unfold String.leb; simpl; try congruence.
  unfold Ascii.compare.
  destruct (N.compare_spec (N_of_ascii x) (N_of_ascii y)) as [Exy|Lxy|Gxy];
    destruct (N.compare_spec (N_of_ascii y) (N_of_ascii z)) as [Eyz|Lyz|Gyz];
    destruct (N.compare_spec (N_of_ascii x) (N_of_ascii z)) as [Exz|Lxz|Gxz];
    try congruence; try lia.
  intros Hab Hbc. specialize (IH b c). unfold String.leb in IH. auto.
Qed.

Lemma sorted_strongly (files : list string) :
  StronglySorted le_string (sorted files).
Proof.
  apply StringSort.StronglySorted_sort. intros a b c. apply leb_trans.
Qed.

Lemma StronglySorted_filter {A : Type} (R : A -> A -> Prop) (p : A -> bool)
      (l : list A) :
  StronglySorted R l -> StronglySorted R (filter p l).
Proof.
  induction 1 as [|x l Hs IH Hx]; simpl; [constructor|].
  destruct (p x); [|exact IH]. constructor; [exact IH|].
  apply Forall_forall. intros y Hy. apply filter_In in Hy as [Hy _].
  rewrite Forall_forall in Hx. auto.
Qed.

Lemma listed_files_sorted (spec : PathSpec.t) (comps files : list string) :
  StronglySorted le_string (listed_files spec comps files).
Proof. apply StronglySorted_filter, sorted_strongly. Qed.

Lemma listed_files_in (spec : PathSpec.t) (comps files : list string) (file : string) :
  In file (listed_files spec comps files) <->
  In file files
  /\ PathSpec.match_file spec (rel_of (comps ++ [file])) = false
  /\ file <> ".gitignore".
Proof.
  unfold listed_files. rewrite filter_In, andb_true_iff, !negb_true_iff, String.eqb_neq.
  split; intros [Hin H]; (split; [|exact H]).
  - eapply Permutation_in; [symmetry; apply StringSort.Permuted_sort|exact Hin].
  - eapply Permutation_in; [apply StringSort.Permuted_sort|exact Hin].
Qed.

End SortFacts.

(** ** Prefixes of paths *)

Section PrefixFacts.

Lemma startswith_nil_false (p : string) : p <> "" -> Str.startswith p "" = false.
Proof. destruct p; [congruence | reflexivity]. Qed.

(** A prefix that ends in a separator cannot stop inside a component. *)
Lemma startswith_component (c D t : string) :
  Str.count Str.slash c = 0 ->
  Str.startswith (D ++ "/") (c ++ t) = true ->
  exists D', D = c ++ D' /\ Str.startswith (D' ++ "/") t = true.
Proof.
  revert D. induction c as [|a c IH]; intros D Hc H.
  - exists D. auto.
  - simpl in Hc. unfold Str.slash in Hc.
    destruct (Ascii.eqb_spec a "/") as [->|Hneq]; [discriminate|].
    destruct D as [|b D]; cbn [append Str.startswith] in H.
    + rewrite Ascii.eqb_sym in H.
      destruct (Ascii.eqb_spec a "/"); [congruence | discriminate].
    + apply andb_true_iff in H as [Hb H].
      apply Ascii.eqb_eq in Hb as ->.
      destruct (IH D Hc H) as (D' & -> & H').
      exists D'. auto.
Qed.

Lemma startswith_join (comps : list string) :
  valid_names comps ->
  forall D,
    Str.startswith (D ++ "/") (Str.join "/" comps) = true ->
    exists pre suf,
      comps = (pre ++ suf)%list /\ pre <> [] /\ suf <> [] /\ D = Str.join "/" pre.
Proof.
  induction 1 as [|c rest Hc Hrest IH]; intros D H.
  - simpl in H. rewrite startswith_nil_false in H; [discriminate|].
    destruct D; discriminate.
  - apply valid_name_inv in Hc as (_ & _ & _ & Hc).
    destruct rest as [|c' rest'].
    + simpl in H. rewrite <- (append_nil_r c) in H.
      apply startswith_component in H as (D' & _ & H); [|assumption].
      rewrite startswith_nil_false in H; [discriminate|]. destruct D'; discriminate.
    + rewrite join_cons in H by discriminate.
      apply startswith_component in H as (D' & -> & H); [|assumption].
      destruct D' as [|b D'].
      * exists [c], (c' :: rest'). repeat split; try discriminate.
        simpl. now rewrite append_nil_r.
      * cbn [append Str.startswith] in H. apply andb_true_iff in H as [Hb H].
        apply Ascii.eqb_eq in Hb. subst b.
        destruct (IH D' H) as (pre & suf & E & Hpre & Hsuf & ->).
        exists (c :: pre), suf. rewrite E. repeat split; try discriminate; try assumption.
        now rewrite join_cons by assumption.
Qed.

Lemma startswith_rel_of (comps : list string) (D : string) :
  valid_names comps ->
  Str.startswith (D ++ "/") (rel_of comps) = true ->
  exists pre suf,
    comps = (pre ++ suf)%list /\ pre <> [] /\ suf <> [] /\ D = rel_of pre.
Proof.
  intros Hv H. destruct comps as [|c cs].
  - destruct D as [|a [|b D]]; simpl in H; try discriminate.
    + rewrite andb_false_r in H. discriminate.
    + destruct (Ascii.eqb a "."); simpl in H; discriminate.
  - destruct (startswith_join _ Hv D H) as (pre & suf & E & Hpre & Hsuf & ->).
    exists pre, suf. repeat split; try assumption. now destruct pre.
Qed.

End PrefixFacts.

(** ** The tree walker *)

Section WalkerTheorems.

Variable cwd : string.
Hypothesis cwd_valid : valid_cwd cwd.
Variable spec : PathSpec.t.

Lemma walk_entries_inv (fs : Dir) (e : entry) :
  wf_dir fs = true ->
  In e (walk_entries spec fs) ->
  exists comps files,
    In (comps, files) (visits spec [] fs)
    /\ valid_names comps /\ valid_names files /\ unpruned spec comps
    /\ (e = DirEntry (List.length comps) (last comps ".") (rel_of comps)
        \/ exists file,
             In file (listed_files spec comps files)
             /\ e = FileEntry (List.length comps) file (rel_of (comps ++ [file]))).
Proof.
  intros Hwf Hin. unfold walk_entries in Hin.
  apply in_flat_map in Hin as ([comps files] & Hv & He).
  pose proof (visits_inv spec fs [] Hwf (Forall_nil _) (unpruned_nil spec)) as Hinv.
  rewrite Forall_forall in Hinv. destruct (Hinv _ Hv) as (H1 & H2 & H3).
  exists comps, files. repeat split; try assumption.
  cbn [dir_entries] in He. destruct He as [<-|He]; [now left|].
  right. apply in_map_iff in He as (file & <- & Hfile). eauto.
Qed.

Lemma in_entry_files (entries : list entry) (f : string) :
  In f (entry_files entries) <-> exists depth name, In (FileEntry depth name f) entries.
Proof.
  unfold entry_files. rewrite in_flat_map. split.
  - intros ([d n r|d n r] & Hin & Hf); simpl in Hf; [tauto|].
    destruct Hf as [<-|[]]. eauto.
  - intros (d & n & Hin). exists (FileEntry d n f). simpl. auto.
Qed.

Lemma listed_files_valid (comps files : list string) (file : string) :
  valid_names files -> In file (listed_files spec comps files) ->
  valid_name file = true.
Proof.
  intros Hf Hin. apply listed_files_in in Hin as [Hin _].
  unfold valid_names in Hf. rewrite Forall_forall in Hf. auto.
Qed.

(** Nothing the walk reaches lies below a directory that matches. *)
Lemma unpruned_not_below (comps : list string) (D : string) :
  valid_names comps -> unpruned spec comps ->
  PathSpec.match_file spec (D ++ "/") = true ->
  Str.startswith (D ++ "/") (rel_of comps) = false
  /\ (D <> "." -> rel_of comps <> D)
  /\ forall file, valid_name file = true ->
                  Str.startswith (D ++ "/") (rel_of (comps ++ [file])) = false.
Proof.
  intros Hv Hun Hm. repeat split.
  - destruct (Str.startswith (D ++ "/") (rel_of comps)) eqn:E; [|reflexivity].
    apply startswith_rel_of in E as (pre & suf & E & Hpre & _ & ->); [|assumption].
    rewrite (Hun pre suf Hpre E) in Hm. discriminate.
  - intros HD E. destruct comps as [|c cs]; [now subst D|].
    rewrite <- E in Hm.
    rewrite (Hun (c :: cs) []) in Hm; [discriminate|discriminate|now rewrite app_nil_r].
  - intros file Hfile.
    destruct (Str.startswith (D ++ "/") (rel_of (comps ++ [file]))) eqn:E; [|reflexivity].
    apply startswith_rel_of in E as (pre & suf & E & Hpre & Hsuf & ->);
      [|now apply valid_names_snoc].
    destruct (exists_last Hsuf) as (suf' & x & ->).
    rewrite app_assoc in E. apply app_inj_tail in E as [E _].
    rewrite (Hun pre suf' Hpre E) in Hm. discriminate.
Qed.

(** C2.  When the relative path of a directory [D], with a trailing
    separator, matches the pattern set, the walk never visits [D] or a
    directory below it, no path below [D] is in the file list returned by
    [collect_files], and no entry of the tree that [build_project_tree]
    renders lies below [D]: whether a path below [D] would itself match or
    be re-included by a negation plays no part. *)
Theorem pruned_directory_is_terminal (fs : Dir) (D : string) :
  wf_dir fs = true ->
  PathSpec.match_file spec (D ++ "/") = true ->
  (forall item, In item (os_walk (keep_dir cwd spec) "." fs) ->
                Str.startswith (D ++ "/") (Path.relpath cwd (fst (fst item)) ".") = false
                /\ (D <> "." -> Path.relpath cwd (fst (fst item)) "." <> D))
  /\ (forall f, In f (collect_files cwd spec fs) -> Str.startswith (D ++ "/") f = false)
  /\ build_project_tree cwd spec fs
     = Str.join Str.nl (map render_entry (walk_entries spec fs))
  /\ (forall e, In e (walk_entries spec fs) ->
                Str.startswith (D ++ "/") (entry_rel e) = false).
Proof.
  intros Hwf Hm.
  assert (Hentries : forall e, In e (walk_entries spec fs) ->
                               Str.startswith (D ++ "/") (entry_rel e) = false).
  { intros e He.
    destruct (walk_entries_inv fs e Hwf He)
      as (comps & files & _ & Hc & Hf & Hun & [->|(file & Hfile & ->)]);
      destruct (unpruned_not_below comps D Hc Hun Hm) as (H1 & _ & H3).
    - exact H1.
    - apply H3. eapply listed_files_valid; eassumption. }
  split; [|split; [|split]].
  - intros item H. apply (in_map item_view) in H.
    change "." with (top_of []) in H.
    rewrite os_walk_visits in H by (assumption || constructor).
    apply in_map_iff in H as ([comps files] & E & Hv).
    pose proof (visits_inv spec fs [] Hwf (Forall_nil _) (unpruned_nil spec)) as Hinv.
    rewrite Forall_forall in Hinv. destruct (Hinv _ Hv) as (H1 & H2 & H3).
    injection E as E _. rewrite <- E. cbn [fst] in *.
    rewrite relpath_top_of by assumption.
    destruct (unpruned_not_below comps D H1 H3 Hm) as (Ha & Hb & _). now split.
  - intros f Hf. rewrite collect_files_entries in Hf by assumption.
    apply in_entry_files in Hf as (d & n & Hf).
    exact (Hentries _ Hf).
  - unfold build_project_tree. now rewrite tree_lines_entries.
  - exact Hentries.
Qed.

(** C3.  The tree text and the file list come out of one and the same
    walk: the lines of the tree are the rendered entries of the pre-order
    walk, the file list is the paths of its file entries in the same
    order, directory by directory, and within each directory the listed
    names are in lexicographic order. *)
Theorem tree_and_file_list_agree (fs : Dir) :
  wf_dir fs = true ->
  build_project_tree cwd spec fs
  = Str.join Str.nl (map render_entry (walk_entries spec fs))
  /\ collect_files cwd spec fs = entry_files (walk_entries spec fs)
  /\ collect_files cwd spec fs
     = flat_map (fun v => map (fun file => rel_of (fst v ++ [file]))
                              (listed_files spec (fst v) (snd v)))
                (visits spec [] fs)
  /\ Forall (fun v => StronglySorted le_string (listed_files spec (fst v) (snd v)))
            (visits spec [] fs).
Proof.
  intros Hwf. split; [|split; [|split]].
  - unfold build_project_tree. now rewrite tree_lines_entries.
  - now apply collect_files_entries.
  - rewrite collect_files_entries by assumption.
    unfold walk_entries. rewrite entry_files_flat_map.
    apply flat_map_ext. intros [comps files]. cbn [dir_entries fst snd].
    unfold entry_files. cbn [flat_map app].
    induction (listed_files spec comps files) as [|f l IH]; [reflexivity|].
    cbn [map flat_map app]. now rewrite IH.
  - apply Forall_forall. intros v _. apply listed_files_sorted.
Qed.

(** C8.  The tree text is the newline-joined sequence, over the visited
    directories in pre-order starting with the root at depth 0 shown as
    [.], of the line of the directory (its name and [/] behind 4 * depth
    spaces) immediately followed by one line for each listed file of that
    directory (behind 4 * (depth + 1) spaces). *)
Theorem tree_text_layout (fs : Dir) :
  wf_dir fs = true ->
  build_project_tree cwd spec fs
  = Str.join Str.nl
      (flat_map
         (fun v =>
            (Str.spaces (4 * List.length (fst v)) ++ last (fst v) "." ++ "/")
            :: map (fun file => Str.spaces (4 * (List.length (fst v) + 1)) ++ file)
                   (listed_files spec (fst v) (snd v)))
         (visits spec [] fs))
  /\ exists files rest, visits spec [] fs = ([], files) :: rest.
Proof.
  intros Hwf. split.
  - unfold build_project_tree. rewrite tree_lines_entries by assumption.
    f_equal. unfold walk_entries. rewrite map_flat_map.
    apply flat_map_ext. intros [comps files].
    cbn [dir_entries fst snd map render_entry]. now rewrite map_map.
  - destruct fs as [files subdirs]. cbn [visits]. eauto.
Qed.

(** C9.  A file named [.gitignore], in whatever directory, is neither in
    the file list nor among the file entries of the tree, whatever the
    pattern set says about it. *)
Theorem gitignore_files_never_listed (fs : Dir) :
  wf_dir fs = true ->
  (forall f, In f (collect_files cwd spec fs) -> Path.name f <> ".gitignore")
  /\ build_project_tree cwd spec fs
     = Str.join Str.nl (map render_entry (walk_entries spec fs))
  /\ (forall depth name rel,
        In (FileEntry depth name rel) (walk_entries spec fs) ->
        name <> ".gitignore").
Proof.
  intros Hwf.
  assert (Hentries : forall depth name rel,
             In (FileEntry depth name rel) (walk_entries spec fs) ->
             name <> ".gitignore" /\ Path.name rel = name).
  { intros depth name rel He.
    destruct (walk_entries_inv fs _ Hwf He)
      as (comps & files & _ & Hc & Hf & _ & [E|(file & Hfile & E)]);
      [discriminate|].
    injection E as _ -> ->.
    pose proof (listed_files_valid _ _ _ Hf Hfile) as Hv.
    apply listed_files_in in Hfile as (_ & _ & Hne).
    split; [exact Hne|]. now apply name_rel_of. }
  split; [|split].
  - intros f Hf. rewrite collect_files_entries in Hf by assumption.
    apply in_entry_files in Hf as (d & n & Hf).
    destruct (Hentries _ _ _ Hf) as [Hne ->]. exact Hne.
  - unfold build_project_tree. now rewrite tree_lines_entries.
  - intros depth name rel He. now destruct (Hentries _ _ _ He).
Qed.

End WalkerTheorems.

Lemma sample_cwd_valid : valid_cwd sample_cwd.
Proof.
  exists ["home"; "user"; "project"]. split; [|reflexivity].
  repeat constructor.
Qed.

Lemma sample_fs_wf : wf_dir sample_fs = true.
Proof. vm_compute. reflexivity. Qed.

Lemma sample_out_matches : PathSpec.match_file sample_spec ("out" ++ "/") = true.
Proof. vm_compute. reflexivity. Qed.

Lemma pruned_directory_is_terminal_witness :
  valid_cwd sample_cwd
  /\ wf_dir sample_fs = true
  /\ PathSpec.match_file sample_spec ("out" ++ "/") = true
  /\ forall f, In f (collect_files sample_cwd sample_spec sample_fs) ->
               Str.startswith ("out" ++ "/") f = false.
Proof.
  split; [exact sample_cwd_valid|].
  split; [exact sample_fs_wf|]. split; [exact sample_out_matches|].
  exact (proj1 (proj2 (pruned_directory_is_terminal
                         sample_cwd sample_cwd_valid sample_spec sample_fs "out"
                         sample_fs_wf sample_out_matches))).
Defined.

(** [out/keep.txt] is re-included by a negation and does not match on its
    own; its directory matches, and the file is in neither output. *)
Example negated_file_below_pruned_directory :
  PathSpec.match_file sample_spec "out/keep.txt" = false
  /\ PathSpec.match_file sample_spec "out/" = true
  /\ collect_files sample_cwd sample_spec sample_fs
     = ["a.txt"; "b.txt"; "src/main.py"; "src/util/a.py"; "src/util/z.py"]
  /\ tree_lines sample_cwd sample_spec sample_fs
     = ["./"; "    a.txt"; "    b.txt";
        "    src/"; "        main.py";
        "        util/"; "            a.py"; "            z.py";
        "    docs/"].
Proof. repeat split; vm_compute; reflexivity. Qed.

Lemma tree_and_file_list_agree_witness :
  valid_cwd sample_cwd
  /\ wf_dir sample_fs = true
  /\ collect_files sample_cwd sample_spec sample_fs
     = entry_files (walk_entries sample_spec sample_fs).
Proof.
  split; [exact sample_cwd_valid|]. split; [exact sample_fs_wf|].
  exact (proj1 (proj2 (tree_and_file_list_agree
                         sample_cwd sample_cwd_valid sample_spec sample_fs
                         sample_fs_wf))).
Defined.

Lemma tree_text_layout_witness :
  valid_cwd sample_cwd
  /\ wf_dir sample_fs = true
  /\ exists files rest, visits sample_spec [] sample_fs = ([], files) :: rest.
Proof.
  split; [exact sample_cwd_valid|]. split; [exact sample_fs_wf|].
  exact (proj2 (tree_text_layout
                  sample_cwd sample_cwd_valid sample_spec sample_fs sample_fs_wf)).
Defined.

Lemma gitignore_files_never_listed_witness :
  valid_cwd sample_cwd
  /\ wf_dir sample_fs = true
  /\ forall f, In f (collect_files sample_cwd sample_spec sample_fs) -> Path.name f <> ".gitignore".
Proof.
  split; [exact sample_cwd_valid|]. split; [exact sample_fs_wf|].
  exact (proj1 (gitignore_files_never_listed
                  sample_cwd sample_cwd_valid sample_spec sample_fs sample_fs_wf)).
Defined.

(** ** The pattern set *)

Section PathSpecFacts.

Import PathSpec.

Lemma check_match_file_app (a b : PathSpec.t) (file : string) :
  check_match_file (a ++ b)%list file
  = fold_left
      (fun out p =>
         match include p with
         | Some inc => if pattern_matches p file then Some inc else out
         | None => out
         end)
      b (check_match_file a file).
Proof. unfold check_match_file. apply fold_left_app. Qed.

(** Over patterns without a negation, the loop answers [Some true] as soon
    as one pattern matches and keeps what it had otherwise. *)
Lemma check_no_negation (b : PathSpec.t) (file : string) :
  never_negates b = true ->
  forall init,
    fold_left
      (fun out p =>
         match include p with
         | Some inc => if pattern_matches p file then Some inc else out
         | None => out
         end)
      b init
    = if some_includes b file then Some true else init.
Proof.
  induction b as [|p b IH]; intros Hb init; [reflexivity|].
  cbn [never_negates forallb] in Hb. apply andb_true_iff in Hb as [Hp Hb].
  cbn [fold_left some_includes existsb]. rewrite (IH Hb).
  fold (some_includes b file).
  destruct (include p) as [[|]|]; try discriminate; cbn [orb].
  - destruct (pattern_matches p file); cbn [orb]; [|reflexivity].
    now destruct (some_includes b file).
  - reflexivity.
Qed.

(** A spec with a spec without negations added behind it matches what
    either of the two matches. *)
Lemma match_file_add (a b : PathSpec.t) (file : string) :
  never_negates b = true ->
  match_file (add a b) file = match_file b file || match_file a file.
Proof.
  intros Hb. unfold match_file, add.
  rewrite check_match_file_app.
  rewrite (check_no_negation b (normalize_file file) Hb).
  unfold check_match_file at 2.
  rewrite (check_no_negation b (normalize_file file) Hb).
  now destruct (some_includes b (normalize_file file)).
Qed.

Lemma default_spec_compiles : from_lines default_ignore_patterns = Some default_spec.
Proof. vm_compute. reflexivity. Qed.

Lemma default_spec_never_negates : never_negates default_spec = true.
Proof. vm_compute. reflexivity. Qed.

(** What [load_gitignore] returns, in one expression. *)
Lemma load_gitignore_result (gitignore : Gitignore) (con : Console.t) :
  fst (load_gitignore gitignore con)
  = match user_lines gitignore with
    | Some lines => option_map (fun user => add user default_spec) (from_lines lines)
    | None => None
    end.
Proof.
  unfold load_gitignore, user_lines. rewrite default_spec_compiles.
  unfold Console.bind, Console.ret, print_warning, Console.print.
  destruct gitignore as [[content|e]|]; cbn [fst snd]; try reflexivity.
  destruct (readlines_strict content) as [[|line lines]|]; cbn [fst snd];
    try reflexivity.
  destruct (from_lines (line :: lines)); reflexivity.
Qed.

Lemma load_gitignore_inv (gitignore : Gitignore) (con : Console.t)
      (spec : PathSpec.t) :
  fst (load_gitignore gitignore con) = Some spec ->
  exists lines user_spec,
    user_lines gitignore = Some lines
    /\ from_lines lines = Some user_spec
    /\ spec = add user_spec default_spec.
Proof.
  rewrite load_gitignore_result.
  destruct (user_lines gitignore) as [lines|]; [|discriminate].
  destruct (from_lines lines) as [user|] eqn:E; cbn [option_map]; [|discriminate].
  intros [= <-]. exists lines, user. repeat split. exact E.
Qed.

(** C1.  The matcher [load_gitignore] returns excludes a path, tested as
    a file or with the trailing separator of a directory, exactly when
    the built-in list excludes it or the user's list excludes it, each
    list resolving its own negations; so a negation of the user's list
    never takes back what the built-in list excludes. *)
Theorem combined_matcher_is_or (gitignore : Gitignore)
        (con : Console.t) (spec : PathSpec.t) :
  fst (load_gitignore gitignore con) = Some spec ->
  exists lines user_spec builtin_spec,
    user_lines gitignore = Some lines
    /\ from_lines lines = Some user_spec
    /\ from_lines default_ignore_patterns = Some builtin_spec
    /\ (forall (rel : string) (is_dir : bool),
          let path := if is_dir then rel ++ "/" else rel in
          match_file spec path
          = match_file builtin_spec path || match_file user_spec path)
    /\ (forall path, match_file builtin_spec path = true ->
                     match_file spec path = true).
Proof.
  intros Hload. apply load_gitignore_inv in Hload as (lines & user & Hlines & Huser & ->).
  exists lines, user, default_spec. split; [exact Hlines|]. split; [exact Huser|].
  split; [exact default_spec_compiles|]. split.
  - intros rel is_dir path. apply match_file_add, default_spec_never_negates.
  - intros path H. rewrite match_file_add by exact default_spec_never_negates.
    now rewrite H.
Qed.

End PathSpecFacts.

Lemma sample_spec_loaded :
  fst (load_gitignore (gitignore_of sample_gitignore) []) = Some sample_spec.
Proof. vm_compute. reflexivity. Qed.

Lemma combined_matcher_is_or_witness :
  fst (load_gitignore (gitignore_of sample_gitignore) []) = Some sample_spec
  /\ exists lines user_spec builtin_spec,
      user_lines (gitignore_of sample_gitignore) = Some lines
      /\ PathSpec.from_lines lines = Some user_spec
      /\ PathSpec.from_lines default_ignore_patterns = Some builtin_spec
      /\ (forall (rel : string) (is_dir : bool),
            let path := if is_dir then rel ++ "/" else rel in
            PathSpec.match_file sample_spec path
            = PathSpec.match_file builtin_spec path
              || PathSpec.match_file user_spec path)
      /\ (forall path, PathSpec.match_file builtin_spec path = true ->
                       PathSpec.match_file sample_spec path = true).
Proof.
  split; [exact sample_spec_loaded|].
  exact (combined_matcher_is_or (gitignore_of sample_gitignore) [] sample_spec
                                sample_spec_loaded).
Defined.

(** The user's [!build/keep.txt] re-includes the file within the user's
    list, and the combined matcher excludes it all the same. *)
Example negation_of_builtin_not_honoured :
  exists user_spec,
    PathSpec.from_lines ["!build/keep.txt"] = Some user_spec
    /\ PathSpec.match_file user_spec "build/keep.txt" = false
    /\ PathSpec.match_file default_spec "build/keep.txt" = true
    /\ PathSpec.match_file (PathSpec.add user_spec default_spec) "build/keep.txt" = true
    /\ PathSpec.match_file (PathSpec.add user_spec default_spec) "build/" = true.
Proof. eexists. repeat split; vm_compute; reflexivity. Qed.

(** ** The document assembler *)

Section AssemblerFacts.

Variable stdout : Console.Stdout.
Variable w : World.

Lemma file_step_output (output : list string) (file : string) (con : Console.t) :
  fst (file_step stdout w output file con)
  = (output ++ file_section stdout w file)%list.
Proof.
  unfold file_section, file_step, Console.bind, Console.ret, print_header,
    print_code_block_indicator, print_warning, print_error,
    print_truncated_content, try_print_warning, Console.try_print, Console.print.
  cbn [fst snd].
  destruct (is_binary_file w file); cbn [fst snd].
  - now rewrite <- app_assoc.
  - destruct (text_open (w file)) as [content|e]; cbn [fst snd].
    + destruct (readlines content); cbn [fst snd];
        destruct (Console.refused stdout _); cbn [fst snd];
        now rewrite <- ?app_assoc.
    + now rewrite <- app_assoc.
Qed.

Lemma for_each_file_output (files : list string) :
  forall output con,
    fst (for_each_file stdout w files output con)
    = (output ++ flat_map (file_section stdout w) files)%list.
Proof.
  induction files as [|file files IH]; intros output con; cbn [for_each_file flat_map].
  - unfold Console.ret. cbn [fst]. now rewrite app_nil_r.
  - unfold Console.bind.
    destruct (file_step stdout w output file con) as [output' con'] eqn:E.
    rewrite IH. rewrite app_assoc. f_equal.
    change output' with (fst (output', con')). rewrite <- E.
    apply file_step_output.
Qed.

(** The document is the head, then the sections of the files in order:
    what the console holds when the run starts plays no part. *)
Lemma build_final_string_sections (tree : string) (files : list string)
      (con : Console.t) :
  fst (build_final_string stdout w tree files con)
  = Str.join Str.nl
      (document_head tree ++ flat_map (file_section stdout w) files)%list.
Proof.
  unfold build_final_string, Console.bind, Console.ret.
  destruct (for_each_file stdout w files ["Project Tree:"; tree; ""] con)
    as [output con'] eqn:E.
  cbn [fst]. f_equal.
  change output with (fst (output, con')). rewrite <- E.
  apply for_each_file_output.
Qed.

Lemma build_final_string_around (tree : string) (before after : list string)
      (file : string) (con : Console.t) :
  fst (build_final_string stdout w tree (before ++ file :: after) con)
  = Str.join Str.nl
      (document_head tree ++ flat_map (file_section stdout w) before
         ++ file_section stdout w file
         ++ flat_map (file_section stdout w) after)%list.
Proof.
  rewrite build_final_string_sections. now rewrite flat_map_app.
Qed.

End AssemblerFacts.

Ltac unfold_console :=
  unfold file_section, file_step, Console.bind, Console.ret, print_header,
    print_code_block_indicator, print_warning, print_error,
    print_truncated_content, try_print_warning, Console.try_print, Console.print;
  cbn [fst snd].

(** ** Lines *)

Section LineFacts.

Lemma split_lines_join (s : string) : Str.join "" (split_lines s) = s.
Proof.
  unfold Str.join. induction s as [|a s IH]; [reflexivity|].
  cbn [split_lines]. destruct (Ascii.eqb_spec a Str.newline) as [->|Hneq].
  - destruct (split_lines s) as [|line lines].
    + simpl in IH. subst s. reflexivity.
    + rewrite <- IH. reflexivity.
  - destruct (split_lines s) as [|line lines].
    + simpl in IH. subst s. reflexivity.
    + rewrite <- IH. destruct lines; reflexivity.
Qed.

(** All lines that [readlines] returns, put together, are the whole text. *)
Lemma readlines_join (content : list byte) :
  Str.join "" (readlines content) = universal_newlines (utf8_decode content).
Proof. apply split_lines_join. Qed.

Lemma join_empty_app (l1 l2 : list string) :
  Str.join "" (l1 ++ l2)%list = Str.join "" l1 ++ Str.join "" l2.
Proof.
  unfold Str.join. induction l1 as [|x l1 IH]; [reflexivity|].
  destruct l1 as [|y l1].
  - cbn [app String.concat]. destruct l2; [now rewrite append_nil_r | reflexivity].
  - change (((x :: y :: l1) ++ l2)%list) with (x :: ((y :: l1) ++ l2))%list.
    change (String.concat "" (x :: (y :: l1) ++ l2))
      with (x ++ "" ++ String.concat "" ((y :: l1) ++ l2)).
    rewrite IH. change (String.concat "" (x :: y :: l1))
      with (x ++ "" ++ String.concat "" (y :: l1)).
    cbn [append]. now rewrite append_assoc.
Qed.

Lemma join_empty_cons (x : string) (l : list string) :
  Str.join "" (x :: l) = x ++ Str.join "" l.
Proof.
  change (x :: l) with ([x] ++ l)%list. rewrite join_empty_app. reflexivity.
Qed.

Lemma split_lines_shape (s : string) : Forall line_shape (split_lines s).
Proof.
  induction s as [|a s IH]; [constructor|]. cbn [split_lines].
  destruct (Ascii.eqb a Str.newline) eqn:Ea.
  - constructor; [|exact IH]. exists "". split; [reflexivity | now left].
  - destruct (split_lines s) as [|line lines].
    + constructor; [|constructor]. exists (String a "").
      split; [cbn [Str.count]; now rewrite Ea | now right].
    + inversion IH as [|? ? (body & Hbody & Hline) Hrest]; subst.
      constructor; [|exact Hrest]. exists (String a body). split.
      * cbn [Str.count]. now rewrite Ea, Hbody.
      * destruct Hline as [-> | ->]; [now left | now right].
Qed.

Lemma count_lines_le (lines : list string) :
  Forall line_shape lines ->
  Str.count Str.newline (Str.join "" lines) <= List.length lines.
Proof.
  induction 1 as [|line lines (body & Hbody & Hline) _ IH]; [apply le_n|].
  rewrite join_empty_cons, count_app. cbn [List.length].
  destruct Hline as [-> | ->].
  - rewrite count_app, Hbody. cbn. lia.
  - rewrite Hbody. lia.
Qed.

(** [rstrip] takes newlines off the end and nothing else. *)
Lemma rstrip_nl_cut (s : string) :
  exists cut, s = Str.rstrip_nl s ++ cut
              /\ Str.count Str.newline cut = String.length cut.
Proof.
  induction s as [|a s (cut & IH & Hcut)]; [now exists ""|].
  cbn [Str.rstrip_nl]. destruct (Str.rstrip_nl s) as [|b r] eqn:E.
  - destruct (Ascii.eqb a Str.newline) eqn:Ea.
    + exists (String a s). split; [reflexivity|].
      cbn [append] in IH. subst cut.
      cbn [Str.count String.length]. now rewrite Ea, Hcut.
    + exists cut. split; [cbn [append]; now rewrite IH at 1 | exact Hcut].
  - exists cut. split; [cbn [append]; now rewrite IH at 1 | exact Hcut].
Qed.

Lemma rstrip_nl_app_nl (s : string) : Str.rstrip_nl (s ++ Str.nl) = Str.rstrip_nl s.
Proof.
  induction s as [|a s IH]; [reflexivity|].
  cbn [append Str.rstrip_nl]. now rewrite IH.
Qed.

Lemma count_rstrip_nl_le (s : string) :
  Str.count Str.newline (Str.rstrip_nl s) <= Str.count Str.newline s.
Proof.
  destruct (rstrip_nl_cut s) as (cut & E & _).
  rewrite E at 2. rewrite count_app. lia.
Qed.

(** What is left of [n] lines once the newlines at the end are off holds
    fewer than [n] newlines: it is a text of at most [n] lines. *)
Lemma count_preview_lt (lines : list string) :
  Forall line_shape lines -> lines <> [] ->
  Str.count Str.newline (Str.rstrip_nl (Str.join "" lines)) < List.length lines.
Proof.
  intros Hshape Hne.
  destruct (exists_last Hne) as (front & line & ->).
  apply Forall_app in Hshape as [Hfront Hline].
  inversion Hline as [|? ? (body & Hbody & Hl) _]; subst.
  pose proof (count_lines_le front Hfront) as Hcount.
  rewrite join_empty_app, length_app. cbn [List.length].
  change (Str.join "" [line]) with line.
  destruct Hl as [-> | ->].
  - rewrite <- append_assoc, rstrip_nl_app_nl.
    pose proof (count_rstrip_nl_le (Str.join "" front ++ body)) as H.
    rewrite count_app, Hbody in H. lia.
  - pose proof (count_rstrip_nl_le (Str.join "" front ++ body)) as H.
    rewrite count_app, Hbody in H. lia.
Qed.

Lemma Forall_firstn_of {X : Type} (P : X -> Prop) (n : nat) (l : list X) :
  Forall P l -> Forall P (firstn n l).
Proof.
  intros H. rewrite <- (firstn_skipn n l) in H. now apply Forall_app in H.
Qed.

(** Bytes that are well formed decode to themselves. *)
Lemma utf8_decode_valid (content : list byte) :
  utf8_valid content = true -> utf8_decode content = string_of_list_byte content.
Proof.
  remember (List.length content) as n eqn:Hn.
  assert (Hle : List.length content <= n) by lia. clear Hn.
  revert content Hle. induction n as [|n IH]; intros content Hle.
  - destruct content; [reflexivity | cbn in Hle; lia].
  - destruct content as [|b0 r0]; [reflexivity|].
    cbn [List.length] in Hle.
    change (string_of_list_byte (b0 :: r0))
      with (String (ascii_of_byte b0) (string_of_list_byte r0)).
    cbn [utf8_valid utf8_decode]. unfold chr.
    destruct (byte_in 0 127 b0).
    { intros H. cbn [append]. rewrite IH by (assumption || lia). reflexivity. }
    destruct (byte_in 194 223 b0).
    { destruct r0 as [|b1 r1]; [discriminate|]. cbn [List.length] in Hle.
      rewrite andb_true_iff. intros [H1 H]. rewrite H1. cbn [append].
      rewrite IH by (assumption || lia). reflexivity. }
    destruct (byte_in 224 239 b0).
    { destruct r0 as [|b1 [|b2 r2]]; try discriminate. cbn [List.length] in Hle.
      rewrite !andb_true_iff. intros [[H1 H2] H]. rewrite H1, H2. cbn [append].
      rewrite IH by (assumption || lia). reflexivity. }
    destruct (byte_in 240 244 b0); [|discriminate].
    destruct r0 as [|b1 [|b2 [|b3 r3]]]; try discriminate. cbn [List.length] in Hle.
    rewrite !andb_true_iff. intros [[[H1 H2] H3] H]. rewrite H1, H2, H3.
    cbn [append]. rewrite IH by (assumption || lia). reflexivity.
Qed.

Lemma universal_newlines_no_cr (content : list byte) :
  forallb not_cr content = true ->
  universal_newlines (string_of_list_byte content) = string_of_list_byte content.
Proof.
  induction content as [|b bs IH]; [reflexivity|].
  cbn [forallb]. rewrite andb_true_iff. intros [Hb Hbs].
  change (string_of_list_byte (b :: bs))
    with (String (ascii_of_byte b) (string_of_list_byte bs)).
  cbn [universal_newlines].
  replace (Ascii.eqb (ascii_of_byte b) Str.carriage_return) with false.
  - now rewrite (IH Hbs).
  - symmetry. unfold not_cr in Hb. apply negb_true_iff in Hb.
    destruct b; try reflexivity. discriminate.
Qed.

End LineFacts.

Section AssemblerTheorems.

Variable stdout : Console.Stdout.
Variable w : World.

Lemma is_binary_file_true (file : string) :
  (exists content, binary_open (w file) = Returns content
                   /\ In x00 (firstn 1024 content))
  \/ (exists e, binary_open (w file) = Raises e) ->
  is_binary_file w file = true.
Proof.
  unfold is_binary_file. intros [(content & -> & Hin)|(e & ->)]; [|reflexivity].
  replace (existsb (Byte.eqb x00) (firstn 1024 content)) with true; [reflexivity|].
  symmetry. apply existsb_exists. exists x00. split; [exact Hin | reflexivity].
Qed.

Lemma section_binary (file : string) :
  is_binary_file w file = true ->
  file_section stdout w file
  = [file_header file; ("(Binary file omitted)" ++ Str.nl)%string].
Proof. intros H. unfold_console. now rewrite H. Qed.

(** The section of a text file: the content, and behind it the message of
    the handler when the console refuses the preview. *)
Lemma section_text (file : string) (content : list byte) :
  is_binary_file w file = false ->
  text_open (w file) = Returns content ->
  readlines content <> [] ->
  file_section stdout w file
  = file_header file
    :: (Str.join "" (readlines content) ++ Str.nl)%string
    :: match Console.refused stdout
               (preview_text
                  (Str.rstrip_nl (Str.join "" (firstn 20 (readlines content)))))
       with
       | None => []
       | Some e => [could_not_read e]
       end.
Proof.
  intros Hbin Htext Hlines. unfold_console. rewrite Hbin, Htext.
  destruct (readlines content); [congruence|].
  unfold preview_text, could_not_read.
  destruct (Console.refused stdout _); reflexivity.
Qed.

Lemma section_empty (file : string) (content : list byte) :
  is_binary_file w file = false ->
  text_open (w file) = Returns content ->
  readlines content = [] ->
  file_section stdout w file
  = [file_header file; ("(Empty file)" ++ Str.nl)%string].
Proof.
  intros Hbin Htext Hlines. unfold_console. now rewrite Hbin, Htext, Hlines.
Qed.

Lemma section_error (file e : string) :
  is_binary_file w file = false ->
  text_open (w file) = Raises e ->
  file_section stdout w file
  = [file_header file; (("(Could not read file: " ++ e ++ ")") ++ Str.nl)%string].
Proof. intros Hbin Htext. unfold_console. now rewrite Hbin, Htext. Qed.

(** C4.  A file with a null byte among its first 1024 bytes, or one the
    binary check cannot open, is classified as binary, whatever its bytes
    from the 1025th on and whatever the text read would give, and its
    section of the document is its header and the placeholder
    [(Binary file omitted)]. *)
Theorem binary_file_placeholder (file : string) :
  (exists content, binary_open (w file) = Returns content
                   /\ In x00 (firstn 1024 content))
  \/ (exists e, binary_open (w file) = Raises e) ->
  is_binary_file w file = true
  /\ forall tree before after con,
       fst (build_final_string stdout w tree (before ++ file :: after) con)
       = Str.join Str.nl
           (["Project Tree:"; tree; ""]
              ++ flat_map (file_section stdout w) before
              ++ [file_header file; ("(Binary file omitted)" ++ Str.nl)%string]
              ++ flat_map (file_section stdout w) after)%list.
Proof.
  intros H. apply is_binary_file_true in H. split; [exact H|].
  intros tree before after con. rewrite build_final_string_around.
  now rewrite (section_binary file H).
Qed.

(** C5.  For a file that is not binary and whose text read gives the lines
    [lines], at least one, the section of the document holds all of them,
    which together are the whole text of the file (the bytes themselves
    when they are well-formed UTF-8 without a carriage return).  The
    preview that goes to the console is cut from the first 20 lines only:
    it is their text less the newlines at its end, a text of at most 20
    lines, followed by an ellipsis; the content in the document is that
    preview, what [rstrip] took off and all the lines from the 21st on.
    A console that refuses the preview gets the message of the handler in
    its place, and the document that message behind the content, which
    stays whole. *)
Theorem text_file_in_full (file : string) (content : list byte) :
  is_binary_file w file = false ->
  text_open (w file) = Returns content ->
  readlines content <> [] ->
  exists preview cut,
    (forall tree before after con,
        fst (build_final_string stdout w tree (before ++ file :: after) con)
        = Str.join Str.nl
            (["Project Tree:"; tree; ""]
               ++ flat_map (file_section stdout w) before
               ++ (file_header file
                   :: (Str.join "" (readlines content) ++ Str.nl)%string
                   :: match Console.refused stdout (preview_text preview) with
                      | None => []
                      | Some e => [could_not_read e]
                      end)
               ++ flat_map (file_section stdout w) after)%list)
    /\ Str.join "" (readlines content) = universal_newlines (utf8_decode content)
    /\ (utf8_valid content = true -> forallb not_cr content = true ->
        Str.join "" (readlines content) = string_of_list_byte content)
    /\ Str.join "" (firstn 20 (readlines content)) = preview ++ cut
    /\ Str.count Str.newline cut = String.length cut
    /\ Str.count Str.newline preview < 20
    /\ Str.join "" (readlines content)
       = preview ++ cut ++ Str.join "" (skipn 20 (readlines content))
    /\ (forall output con,
           snd (file_step stdout w output file con)
           = (con ++ [(Colorama.GREEN ++ "### File: " ++ file
                         ++ Colorama.RESET_ALL)%string;
                      (Colorama.MAGENTA ++ "### Code block below:"
                         ++ Colorama.RESET_ALL)%string;
                      match Console.refused stdout (preview_text preview) with
                      | None =>
                          (Colorama.WHITE ++ preview ++ "..." ++ Str.nl
                             ++ Colorama.RESET_ALL)%string
                      | Some e =>
                          (Colorama.RED ++ ("(Could not read file: " ++ e ++ ")")
                             ++ Colorama.RESET_ALL)%string
                      end;
                      ""])%list).
Proof.
  intros Hbin Htext Hlines.
  destruct (rstrip_nl_cut (Str.join "" (firstn 20 (readlines content))))
    as (cut & Hcut & Hnl).
  exists (Str.rstrip_nl (Str.join "" (firstn 20 (readlines content)))), cut.
  split; [|split; [|split; [|split; [|split; [|split; [|split]]]]]].
  - intros tree before after con. rewrite build_final_string_around.
    now rewrite (section_text file content Hbin Htext Hlines).
  - apply readlines_join.
  - intros Hvalid Hcr. rewrite readlines_join, (utf8_decode_valid _ Hvalid).
    now apply universal_newlines_no_cr.
  - exact Hcut.
  - exact Hnl.
  - assert (Hfirst : firstn 20 (readlines content) <> []).
    { destruct (readlines content); [congruence | discriminate]. }
    pose proof (count_preview_lt
                  (firstn 20 (readlines content))
                  (Forall_firstn_of _ 20 _ (split_lines_shape _)) Hfirst) as H.
    pose proof (firstn_le_length 20 (readlines content)). lia.
  - rewrite <- (firstn_skipn 20 (readlines content)) at 1.
    rewrite join_empty_app. rewrite Hcut at 1. now rewrite append_assoc.
  - intros output con. unfold_console. rewrite Hbin, Htext.
    destruct (readlines content) eqn:E; [congruence|].
    unfold preview_text. destruct (Console.refused stdout _);
      cbn [fst snd]; rewrite <- !app_assoc; reflexivity.
Qed.

(** C6, as the code has it.  When the text read of a file raises, the
    section of the file is its header and one placeholder, and the sections
    of the files after it follow as they would otherwise: the placeholder is
    [(Could not read file: <error>)] when the binary check could open the
    file and found no null byte, and [(Binary file omitted)] when the
    binary check had already given the file up. *)
Theorem failed_read_placeholder (file e : string) :
  text_open (w file) = Raises e ->
  forall tree before after con,
    fst (build_final_string stdout w tree (before ++ file :: after) con)
    = Str.join Str.nl
        (["Project Tree:"; tree; ""]
           ++ flat_map (file_section stdout w) before
           ++ [file_header file;
               if is_binary_file w file
               then ("(Binary file omitted)" ++ Str.nl)%string
               else (("(Could not read file: " ++ e ++ ")") ++ Str.nl)%string]
           ++ flat_map (file_section stdout w) after)%list.
Proof.
  intros Htext tree before after con. rewrite build_final_string_around.
  destruct (is_binary_file w file) eqn:Hbin.
  - now rewrite (section_binary file Hbin).
  - now rewrite (section_error file e Hbin Htext).
Qed.

(** C7.  A file of zero bytes gets the placeholder [(Empty file)]; a file
    that holds one newline gets its content, an empty line, and not the
    placeholder. *)
Theorem empty_file_placeholder (empty newline : string) :
  w empty = regular [] ->
  w newline = regular [x0a] ->
  (forall tree before after con,
      fst (build_final_string stdout w tree (before ++ empty :: after) con)
      = Str.join Str.nl
          (["Project Tree:"; tree; ""]
             ++ flat_map (file_section stdout w) before
             ++ [file_header empty; ("(Empty file)" ++ Str.nl)%string]
             ++ flat_map (file_section stdout w) after)%list)
  /\ file_section stdout w newline
     <> [file_header newline; ("(Empty file)" ++ Str.nl)%string]
  /\ (forall tree before after con,
         fst (build_final_string stdout w tree (before ++ newline :: after) con)
         = Str.join Str.nl
             (["Project Tree:"; tree; ""]
                ++ flat_map (file_section stdout w) before
                ++ [file_header newline; (Str.nl ++ Str.nl)%string]
                ++ flat_map (file_section stdout w) after)%list).
Proof.
  intros Hempty Hnewline.
  assert (E : file_section stdout w newline
              = [file_header newline; (Str.nl ++ Str.nl)%string]).
  { rewrite (section_text newline [x0a]); [reflexivity| | |discriminate].
    - unfold is_binary_file. now rewrite Hnewline.
    - now rewrite Hnewline. }
  split; [|split].
  - intros tree before after con. rewrite build_final_string_around.
    rewrite (section_empty empty []); [reflexivity| | |reflexivity].
    + unfold is_binary_file. now rewrite Hempty.
    + now rewrite Hempty.
  - rewrite E. intros [= H].
  - intros tree before after con. rewrite build_final_string_around.
    now rewrite E.
Qed.

Lemma file_section_ext (w' : World) (file : string) :
  w file = w' file -> file_section stdout w file = file_section stdout w' file.
Proof.
  intros E. unfold_console. unfold is_binary_file. now rewrite E.
Qed.

(** Two runs on one console, on the same tree text and file list and over
    files that are the same to both, return the same document, whatever
    has been printed before. *)
Lemma document_on_one_console (w' : World) (tree : string) (files : list string)
      (con con' : Console.t) :
  (forall file, In file files -> w file = w' file) ->
  fst (build_final_string stdout w tree files con)
  = fst (build_final_string stdout w' tree files con').
Proof.
  intros H. rewrite !build_final_string_sections. do 2 f_equal.
  apply flat_map_ext_in. intros file Hin. now apply file_section_ext, H.
Qed.

End AssemblerTheorems.

(** ** The theorems at the sample world *)

Lemma binary_file_placeholder_witness :
  ((exists content, binary_open (sample_world "b.bin") = Returns content
                    /\ In x00 (firstn 1024 content))
   \/ (exists e, binary_open (sample_world "b.bin") = Raises e))
  /\ is_binary_file sample_world "b.bin" = true.
Proof.
  assert (H : (exists content, binary_open (sample_world "b.bin") = Returns content
                               /\ In x00 (firstn 1024 content))
              \/ (exists e, binary_open (sample_world "b.bin") = Raises e)).
  { left. exists [x68; x00; x69]. split; [reflexivity|]. simpl. auto. }
  split; [exact H|].
  exact (proj1 (binary_file_placeholder utf8_stdout sample_world "b.bin" H)).
Defined.

(** [long.txt] holds 25 lines. *)
Lemma sample_long_lines :
  readlines (bytes_of sample_long_text)
  = map (fun c => String c Str.nl) (list_ascii_of_string "abcdefghijklmnopqrstuvwxy").
Proof. vm_compute. reflexivity. Qed.

Lemma text_file_in_full_witness :
  is_binary_file sample_world "long.txt" = false
  /\ text_open (sample_world "long.txt") = Returns (bytes_of sample_long_text)
  /\ readlines (bytes_of sample_long_text) <> []
  /\ List.length (readlines (bytes_of sample_long_text)) = 25
  /\ exists preview cut,
      (forall tree before after con,
          fst (build_final_string utf8_stdout sample_world tree
                                  (before ++ "long.txt" :: after) con)
          = Str.join Str.nl
              (["Project Tree:"; tree; ""]
                 ++ flat_map (file_section utf8_stdout sample_world) before
                 ++ (file_header "long.txt"
                     :: (Str.join "" (readlines (bytes_of sample_long_text))
                           ++ Str.nl)%string
                     :: match Console.refused utf8_stdout (preview_text preview) with
                        | None => []
                        | Some e => [could_not_read e]
                        end)
                 ++ flat_map (file_section utf8_stdout sample_world) after)%list)
      /\ Str.join "" (readlines (bytes_of sample_long_text))
         = universal_newlines (utf8_decode (bytes_of sample_long_text))
      /\ (utf8_valid (bytes_of sample_long_text) = true ->
          forallb not_cr (bytes_of sample_long_text) = true ->
          Str.join "" (readlines (bytes_of sample_long_text))
          = string_of_list_byte (bytes_of sample_long_text))
      /\ Str.join "" (firstn 20 (readlines (bytes_of sample_long_text)))
         = preview ++ cut
      /\ Str.count Str.newline cut = String.length cut
      /\ Str.count Str.newline preview < 20
      /\ Str.join "" (readlines (bytes_of sample_long_text))
         = preview ++ cut
             ++ Str.join "" (skipn 20 (readlines (bytes_of sample_long_text)))
      /\ (forall output con,
             snd (file_step utf8_stdout sample_world output "long.txt" con)
             = (con ++ [(Colorama.GREEN ++ "### File: " ++ "long.txt"
                           ++ Colorama.RESET_ALL)%string;
                        (Colorama.MAGENTA ++ "### Code block below:"
                           ++ Colorama.RESET_ALL)%string;
                        match Console.refused utf8_stdout (preview_text preview) with
                        | None =>
                            (Colorama.WHITE ++ preview ++ "..." ++ Str.nl
                               ++ Colorama.RESET_ALL)%string
                        | Some e =>
                            (Colorama.RED ++ ("(Could not read file: " ++ e ++ ")")
                               ++ Colorama.RESET_ALL)%string
                        end;
                        ""])%list).
Proof.
  assert (H1 : is_binary_file sample_world "long.txt" = false)
    by (vm_compute; reflexivity).
  assert (H2 : text_open (sample_world "long.txt")
               = Returns (bytes_of sample_long_text)) by reflexivity.
  assert (H3 : readlines (bytes_of sample_long_text) <> [])
    by (rewrite sample_long_lines; discriminate).
  assert (H4 : List.length (readlines (bytes_of sample_long_text)) = 25)
    by (rewrite sample_long_lines; reflexivity).
  split; [exact H1|]. split; [exact H2|]. split; [exact H3|]. split; [exact H4|].
  exact (text_file_in_full utf8_stdout sample_world "long.txt" _ H1 H2 H3).
Defined.

(** The 25 lines of [long.txt] at work: the document holds them all, the
    console the first 20 without the newline of the 20th. *)
Example long_file_in_full :
  file_section utf8_stdout sample_world "long.txt"
  = [file_header "long.txt"; sample_long_text ++ Str.nl]
  /\ nth 2 (snd (file_step utf8_stdout sample_world [] "long.txt" [])) ""
     = Colorama.WHITE
         ++ Str.join Str.nl
              (map (fun c => String c "") (list_ascii_of_string "abcdefghijklmnopqrst"))
         ++ "..." ++ Str.nl ++ Colorama.RESET_ALL
  /\ Str.contains ("t" ++ Str.nl ++ "u" ++ Str.nl ++ "v")
                  (Str.join "" (file_section utf8_stdout sample_world "long.txt"))
     = true
  /\ Str.contains "u"
                  (nth 2 (snd (file_step utf8_stdout sample_world [] "long.txt" [])) "")
     = false.
Proof. repeat split; vm_compute; reflexivity. Qed.

Lemma failed_read_placeholder_witness :
  text_open (sample_world "gone")
  = Raises "[Errno 2] No such file or directory: 'gone'"
  /\ fst (build_final_string utf8_stdout sample_world "./" ([] ++ "gone" :: ["a.txt"]) [])
     = Str.join Str.nl
         (["Project Tree:"; "./"; ""]
            ++ flat_map (file_section utf8_stdout sample_world) []
            ++ [file_header "gone";
                if is_binary_file sample_world "gone"
                then ("(Binary file omitted)" ++ Str.nl)%string
                else (("(Could not read file: "
                         ++ "[Errno 2] No such file or directory: 'gone'" ++ ")")
                        ++ Str.nl)%string]
            ++ flat_map (file_section utf8_stdout sample_world) ["a.txt"])%list.
Proof.
  assert (H : text_open (sample_world "gone")
              = Raises "[Errno 2] No such file or directory: 'gone'") by reflexivity.
  split; [exact H|].
  exact (failed_read_placeholder utf8_stdout sample_world "gone" _ H "./" []
                                 ["a.txt"] []).
Defined.

(** The document of that run, written out. *)
Example failed_read_document :
  fst (build_final_string utf8_stdout sample_world "./" ["gone"; "a.txt"] [])
  = Str.join Str.nl
      ["Project Tree:"; "./"; "";
       file_header "gone";
       "(Could not read file: [Errno 2] No such file or directory: 'gone')" ++ Str.nl;
       file_header "a.txt"; "hello" ++ Str.nl ++ Str.nl].
Proof. vm_compute. reflexivity. Qed.

Lemma empty_file_placeholder_witness :
  sample_world "empty" = regular []
  /\ sample_world "newline" = regular [x0a]
  /\ file_section utf8_stdout sample_world "newline"
     <> [file_header "newline"; ("(Empty file)" ++ Str.nl)%string].
Proof.
  assert (H1 : sample_world "empty" = regular []) by reflexivity.
  assert (H2 : sample_world "newline" = regular [x0a]) by reflexivity.
  split; [exact H1|]. split; [exact H2|].
  exact (proj1 (proj2 (empty_file_placeholder utf8_stdout sample_world
                                              "empty" "newline" H1 H2))).
Defined.

(** C10.  The console has a part in the document.  [cafe.txt] holds one
    line, a word whose last letter is U+00E9; the tree text, the file list
    and the file are the same to both runs.  On a console that encodes the
    preview the section of the file is its header and its content; on a
    console of encoding ASCII the [print] of the preview raises under the
    [try], the handler takes the exception for a failed read, and the
    document holds [(Could not read file: ...)] behind the content that
    was read. *)
Theorem print_failure_changes_the_document :
  fst (build_final_string utf8_stdout sample_world "./" ["cafe.txt"] [])
  = Str.join Str.nl
      ["Project Tree:"; "./"; "";
       file_header "cafe.txt";
       string_of_list_byte [x63; x61; x66; xc3; xa9; x0a] ++ Str.nl]
  /\ fst (build_final_string ascii_stdout sample_world "./" ["cafe.txt"] [])
     = Str.join Str.nl
         ["Project Tree:"; "./"; "";
          file_header "cafe.txt";
          string_of_list_byte [x63; x61; x66; xc3; xa9; x0a] ++ Str.nl;
          "(Could not read file: 'ascii' codec can't encode character '\xe9' "
            ++ "in position 8: ordinal not in range(128))" ++ Str.nl]
  /\ fst (build_final_string utf8_stdout sample_world "./" ["cafe.txt"] [])
     <> fst (build_final_string ascii_stdout sample_world "./" ["cafe.txt"] []).
Proof.
  split; [vm_compute; reflexivity|]. split; [vm_compute; reflexivity|].
  vm_compute. discriminate.
Qed.

(** C6 as the specification states it fails for a file no call can open:
    the read fails, and the document holds [(Binary file omitted)] for the
    file and no [(Could not read file: ...)]. *)
Lemma unreadable_file_reported_as_binary :
  sample_world "locked" = unreadable "[Errno 13] Permission denied: 'locked'"
  /\ fst (build_final_string utf8_stdout sample_world "./" ["locked"; "a.txt"] [])
     = Str.join Str.nl
         ["Project Tree:"; "./"; "";
          file_header "locked"; "(Binary file omitted)" ++ Str.nl;
          file_header "a.txt"; "hello" ++ Str.nl ++ Str.nl]
  /\ Str.contains "(Could not read file"
                  (fst (build_final_string utf8_stdout sample_world "./"
                                           ["locked"; "a.txt"] []))
     = false.
Proof. repeat split; vm_compute; reflexivity. Qed.

(** The scenario of the specification, run through [main]. *)
Example scenario_document :
  fst (main utf8_stdout sample_cwd (gitignore_of ["b.bin" ++ Str.nl]) scenario_fs
            sample_world [])
  = Some (Str.join Str.nl
            ["Project Tree:";
             Str.join Str.nl ["./"; "    a.txt"; "    c/"];
             "";
             file_header "a.txt"; "hello" ++ Str.nl ++ Str.nl]).
Proof. vm_compute. reflexivity. Qed.

(** ** The models at work *)

(** A null byte behind the first 1024 bytes does not make a file binary. *)
Example null_byte_after_the_chunk :
  let content := (repeat x61 1024 ++ [x00])%list in
  is_binary_file (fun _ => regular content) "late" = false
  /\ is_binary_file (fun _ => regular (x00 :: content)) "early" = true.
Proof. split; vm_compute; reflexivity. Qed.

(** Ill-formed bytes are replaced, a carriage return is read as a newline,
    and the lines keep their newlines. *)
Example readlines_replaces_and_translates :
  readlines [x61; x0d; x0a; x62; x0d; x63; xc3; xa9; xff; xe2; x82]
  = ["a" ++ Str.nl; "b" ++ Str.nl;
     "c" ++ chr xc3 ++ chr xa9 ++ replacement_character ++ replacement_character].
Proof. vm_compute. reflexivity. Qed.

(** The patterns of the built-in list at work: a directory pattern needs
    the trailing separator and matches at any depth, a name pattern matches
    the name at any depth. *)
Example default_patterns_at_work :
  map (PathSpec.match_file default_spec)
      [".git/"; ".git"; "a/b/__pycache__/"; "lib/"; "lib"; "pkg/lib/x.py";
       "m.pyc"; "pkg/m.pyc"; "m.py"; "a$py.class"; ".DS_Store"; "./build/"]
  = [true; false; true; true; false; true;
     true; true; false; true; true; true].
Proof. vm_compute. reflexivity. Qed.

(** Within one list the last pattern that matches decides, anchored
    patterns match from the root only, and a pattern that does not compile
    fails the call. *)
Example gitwildmatch_at_work :
  option_map
    (fun spec =>
       map (PathSpec.match_file spec)
           ["a.txt"; "keep.txt"; "d/keep.txt"; "top"; "d/top";
            "docs/old"; "docs/a/b/old"; "x/docs/old"])
    (PathSpec.from_lines
       ["*.txt"; "!keep.txt"; "/top"; "docs/**/old"; "# note"; " "])
  = Some [true; false; false; true; false; true; true; false]
  /\ PathSpec.from_lines ["!"] = None.
Proof. split; vm_compute; reflexivity. Qed.

(** * Further properties *)

(** ** More on the tree walker *)

Section WalkerExtras.

Variable cwd : string.
Variable spec : PathSpec.t.

(** X1.  No path in the list that [collect_files] returns matches the
    pattern set, for any directory tree. *)
Theorem collected_files_do_not_match (fs : Dir) (f : string) :
  In f (collect_files cwd spec fs) -> PathSpec.match_file spec f = false.
Proof.
  rewrite collect_files_items. intros H.
  apply in_flat_map in H as ([root files] & _ & H).
  cbn [collect_item] in H. apply in_map_iff in H as (file & <- & H).
  unfold item_files in H. apply filter_In in H as [_ H].
  unfold file_included in H. apply andb_true_iff in H as [H _].
  now apply negb_true_iff in H.
Qed.

Lemma tree_item_length (v : string * list string) :
  List.length (tree_item cwd spec v) = 1 + List.length (collect_item cwd spec v).
Proof.
  destruct v as [root files]. cbn [tree_item collect_item List.length].
  now rewrite !length_map.
Qed.

Lemma tree_lines_length (fs : Dir) :
  List.length (tree_lines cwd spec fs)
  = List.length (os_walk (keep_dir cwd spec) "." fs)
    + List.length (collect_files cwd spec fs).
Proof.
  rewrite tree_lines_items, collect_files_items.
  rewrite <- (length_map item_view (os_walk (keep_dir cwd spec) "." fs)).
  induction (map item_view (os_walk (keep_dir cwd spec) "." fs)) as [|v l IH];
    [reflexivity|].
  cbn [flat_map List.length]. rewrite !length_app, tree_item_length, IH.
  cbn [plus]. lia.
Qed.

Lemma split_join_lines (lines : list string) :
  Forall (fun line => Str.count Str.newline line = 0) lines ->
  lines <> [] ->
  Str.split Str.newline (Str.join Str.nl lines) = lines.
Proof.
  induction 1 as [|x xs Hx Hxs IH]; [congruence|]. intros _.
  destruct xs as [|y ys].
  - simpl. now apply split_no_sep.
  - rewrite join_cons by discriminate.
    change (Str.nl ++ Str.join Str.nl (y :: ys))
      with (String Str.newline (Str.join Str.nl (y :: ys))).
    rewrite split_app_sep by assumption.
    now rewrite IH.
Qed.

Lemma count_spaces (n : nat) : Str.count Str.newline (Str.spaces n) = 0.
Proof. induction n as [|n IH]; [reflexivity|]. cbn [Str.spaces Str.count]. exact IH. Qed.

Lemma plain_names_inv (files : list string) (subdirs : list (string * option Dir)) :
  plain_names (MkDir files subdirs) = true ->
  Forall (fun n => plain_name n = true) files
  /\ forall entry, In entry subdirs ->
                   plain_name (fst entry) = true
                   /\ forall sub, snd entry = Some sub -> plain_names sub = true.
Proof.
  cbn [plain_names]. rewrite andb_true_iff, !forallb_forall. intros [Hf Hs]. split.
  - apply Forall_forall. exact Hf.
  - intros entry Hin. apply Hs in Hin. apply andb_true_iff in Hin as [Hn Hsub].
    split; [exact Hn|]. intros sub E. now rewrite E in Hsub.
Qed.

(** The walk meets plain names only, in a tree of plain names. *)
Lemma visits_plain (d : Dir) :
  forall comps,
    plain_names d = true ->
    Forall (fun n => plain_name n = true) comps ->
    Forall (fun v => Forall (fun n => plain_name n = true) (fst v)
                     /\ Forall (fun n => plain_name n = true) (snd v))
           (visits spec comps d).
Proof.
  induction d as [files subdirs IH] using Dir_nested_ind.
  intros comps Hplain Hcomps. apply plain_names_inv in Hplain as [Hfiles Hsub].
  cbn [visits]. constructor; [now cbn|].
  apply Forall_flat_map, Forall_forall. intros [n o] Hin.
  rewrite Forall_forall in IH. specialize (IH _ Hin).
  destruct (Hsub _ Hin) as [Hn Hp]. cbn [fst snd] in *.
  destruct (PathSpec.match_file spec (rel_of (comps ++ [n]) ++ "/")); [constructor|].
  destruct o as [sub|]; [|constructor].
  apply IH; auto. apply Forall_app. split; [exact Hcomps|]. now constructor.
Qed.

Lemma last_plain (comps : list string) :
  Forall (fun n => plain_name n = true) comps -> plain_name (last comps ".") = true.
Proof.
  induction 1 as [|n comps Hn Hcomps IH]; [reflexivity|].
  destruct comps; [exact Hn | exact IH].
Qed.

Lemma render_entry_plain (fs : Dir) (e : entry) :
  plain_names fs = true ->
  In e (walk_entries spec fs) ->
  Str.count Str.newline (render_entry e) = 0.
Proof.
  intros Hplain Hin. unfold walk_entries in Hin.
  apply in_flat_map in Hin as ([comps files] & Hv & He).
  pose proof (visits_plain fs [] Hplain (Forall_nil _)) as Hall.
  rewrite Forall_forall in Hall. destruct (Hall _ Hv) as [Hcomps Hfiles].
  cbn [fst snd] in *. cbn [dir_entries] in He. destruct He as [<-|He].
  - cbn [render_entry]. rewrite !count_app, count_spaces.
    apply last_plain in Hcomps. unfold plain_name in Hcomps.
    apply Nat.eqb_eq in Hcomps. now rewrite Hcomps.
  - apply in_map_iff in He as (file & <- & Hfile).
    apply listed_files_in in Hfile as [Hfile _].
    rewrite Forall_forall in Hfiles. specialize (Hfiles _ Hfile).
    unfold plain_name in Hfiles. apply Nat.eqb_eq in Hfiles.
    cbn [render_entry]. now rewrite count_app, count_spaces, Hfiles.
Qed.

(** X2.  In a tree whose names hold no newline, the text of the tree has
    one line for every directory the walk visits and one for every path of
    the file list, and no other line. *)
Theorem tree_line_count (fs : Dir) :
  valid_cwd cwd ->
  wf_dir fs = true ->
  plain_names fs = true ->
  List.length (Str.split Str.newline (build_project_tree cwd spec fs))
  = List.length (os_walk (keep_dir cwd spec) "." fs)
    + List.length (collect_files cwd spec fs).
Proof.
  intros Hcwd Hwf Hplain. rewrite <- tree_lines_length. unfold build_project_tree.
  rewrite split_join_lines; [reflexivity| |].
  - rewrite (tree_lines_entries cwd Hcwd spec fs Hwf).
    apply Forall_forall. intros line Hin.
    apply in_map_iff in Hin as (e & <- & He).
    now apply (render_entry_plain fs).
  - rewrite (tree_lines_entries cwd Hcwd spec fs Hwf).
    unfold walk_entries. destruct fs as [files subdirs]. cbn. discriminate.
Qed.

End WalkerExtras.

Lemma sample_fs_plain : plain_names sample_fs = true.
Proof. vm_compute. reflexivity. Qed.

Lemma tree_line_count_witness :
  valid_cwd sample_cwd
  /\ wf_dir sample_fs = true
  /\ plain_names sample_fs = true
  /\ List.length
       (Str.split Str.newline (build_project_tree sample_cwd sample_spec sample_fs))
     = List.length (os_walk (keep_dir sample_cwd sample_spec) "." sample_fs)
       + List.length (collect_files sample_cwd sample_spec sample_fs).
Proof.
  split; [exact sample_cwd_valid|]. split; [exact sample_fs_wf|].
  split; [exact sample_fs_plain|].
  exact (tree_line_count sample_cwd sample_spec sample_fs
                         sample_cwd_valid sample_fs_wf sample_fs_plain).
Defined.

(** A file name may hold a newline, and its entry then takes two lines of
    the text. *)
Example newline_in_a_file_name :
  let fs := MkDir ["a" ++ Str.nl ++ "b"] [] in
  wf_dir fs = true
  /\ plain_names fs = false
  /\ List.length (Str.split Str.newline (build_project_tree sample_cwd [] fs)) = 3
  /\ List.length (os_walk (keep_dir sample_cwd []) "." fs) = 1
  /\ List.length (collect_files sample_cwd [] fs) = 1.
Proof. repeat split; vm_compute; reflexivity. Qed.

(** ** The walk under matchers of equal verdicts *)

Section VerdictFacts.

Variable cwd : string.
Variables spec spec' : PathSpec.t.
Hypothesis same_verdicts :
  forall path, PathSpec.match_file spec path = PathSpec.match_file spec' path.

Lemma os_walk_ext (keep keep' : string -> string -> bool) (d : Dir) :
  (forall root name, keep root name = keep' root name) ->
  forall top, os_walk keep top d = os_walk keep' top d.
Proof.
  intros Hkeep. induction d as [files subdirs IH] using Dir_nested_ind.
  intros top. cbn [os_walk]. f_equal. apply flat_map_ext_in.
  intros [n o] Hin. cbn [fst snd]. rewrite Hkeep.
  destruct (keep' top n); [|reflexivity].
  destruct o as [sub|]; [|reflexivity].
  rewrite Forall_forall in IH. now apply (IH _ Hin).
Qed.

Lemma os_walk_same_verdicts (fs : Dir) :
  os_walk (keep_dir cwd spec) "." fs = os_walk (keep_dir cwd spec') "." fs.
Proof.
  apply os_walk_ext. intros root name. unfold keep_dir. now rewrite same_verdicts.
Qed.

Lemma item_files_same_verdicts (root : string) (files : list string) :
  item_files cwd spec root files = item_files cwd spec' root files.
Proof.
  unfold item_files. apply filter_ext. intros file. unfold file_included.
  now rewrite same_verdicts.
Qed.

Lemma tree_lines_same_verdicts (fs : Dir) :
  tree_lines cwd spec fs = tree_lines cwd spec' fs.
Proof.
  rewrite !tree_lines_items, os_walk_same_verdicts.
  apply flat_map_ext. intros [root files]. cbn [tree_item].
  now rewrite item_files_same_verdicts.
Qed.

Lemma collect_files_same_verdicts (fs : Dir) :
  collect_files cwd spec fs = collect_files cwd spec' fs.
Proof.
  rewrite !collect_files_items, os_walk_same_verdicts.
  apply flat_map_ext. intros [root files]. cbn [collect_item].
  now rewrite item_files_same_verdicts.
Qed.

End VerdictFacts.

Section CommentFacts.

Import PathSpec.

Lemma comment_compiles_to_nothing (line : string) :
  comment_or_blank line = true ->
  pattern_to_regex line = Some (mkPattern None None).
Proof.
  unfold comment_or_blank. rewrite andb_true_iff, negb_true_iff, orb_true_iff.
  intros [Hend H]. unfold pattern_to_regex. rewrite Hend.
  destruct (Str.startswith "#" (Str.strip line)); [reflexivity|].
  destruct H as [H|H]; [discriminate|].
  rewrite H. now destruct (Str.strip line =? "/").
Qed.

Lemma comments_compile (lines : list string) :
  forallb comment_or_blank lines = true ->
  exists user, from_lines lines = Some user
               /\ Forall (fun p => include p = None) user.
Proof.
  induction lines as [|line lines IH]; cbn [forallb from_lines].
  - intros _. now exists [].
  - rewrite andb_true_iff. intros [Hline Hlines].
    destruct (IH Hlines) as (user & E & Huser).
    destruct (line =? ""); [now exists user|].
    rewrite (comment_compiles_to_nothing _ Hline), E.
    eexists. split; [reflexivity|]. now constructor.
Qed.

Lemma inert_patterns_decide_nothing (user rest : PathSpec.t) (path : string) :
  Forall (fun p => include p = None) user ->
  match_file (add user rest) path = match_file rest path.
Proof.
  intros H. unfold match_file, add. rewrite check_match_file_app.
  replace (check_match_file user (normalize_file path)) with (@None bool);
    [reflexivity|].
  unfold check_match_file. induction H as [|p user Hp _ IH]; [reflexivity|].
  cbn [fold_left]. now rewrite Hp.
Qed.

(** X3.  A [.gitignore] that opens, decodes and holds blank lines and
    comments only gives the matcher, the tree and the file list that a
    missing [.gitignore] gives. *)
Theorem comments_only_gitignore (cwd : string) (fs : Dir) (content : list byte)
        (lines : list string) (con con' : Console.t) :
  readlines_strict content = Some lines ->
  forallb comment_or_blank lines = true ->
  exists spec spec',
    fst (load_gitignore (Some (Returns content)) con) = Some spec
    /\ fst (load_gitignore None con') = Some spec'
    /\ (forall path, match_file spec path = match_file spec' path)
    /\ build_project_tree cwd spec fs = build_project_tree cwd spec' fs
    /\ collect_files cwd spec fs = collect_files cwd spec' fs.
Proof.
  intros Hread Hlines. destruct (comments_compile lines Hlines) as (user & E & Huser).
  assert (Hload : fst (load_gitignore (Some (Returns content)) con)
                  = Some (add user default_spec)).
  { rewrite load_gitignore_result. cbn [user_lines]. now rewrite Hread, E. }
  assert (Hnone : fst (load_gitignore None con') = Some (add [] default_spec)).
  { now rewrite load_gitignore_result. }
  assert (Hsame : forall path,
             match_file (add user default_spec) path
             = match_file (add [] default_spec) path).
  { intros path. now rewrite !inert_patterns_decide_nothing by (assumption || constructor). }
  exists (add user default_spec), (add [] default_spec).
  split; [exact Hload|]. split; [exact Hnone|]. split; [exact Hsame|]. split.
  - unfold build_project_tree. f_equal. now apply tree_lines_same_verdicts.
  - now apply collect_files_same_verdicts.
Qed.

End CommentFacts.

Lemma comments_only_gitignore_witness :
  let content := bytes_of ("# build output" ++ Str.nl ++ Str.nl ++ "   ") in
  let lines := ["# build output" ++ Str.nl; Str.nl; "   "] in
  readlines_strict content = Some lines
  /\ forallb comment_or_blank lines = true
  /\ exists spec spec',
      fst (load_gitignore (Some (Returns content)) []) = Some spec
      /\ fst (load_gitignore None []) = Some spec'
      /\ (forall path, PathSpec.match_file spec path = PathSpec.match_file spec' path)
      /\ build_project_tree sample_cwd spec sample_fs
         = build_project_tree sample_cwd spec' sample_fs
      /\ collect_files sample_cwd spec sample_fs
         = collect_files sample_cwd spec' sample_fs.
Proof.
  intros content lines.
  assert (H1 : readlines_strict content = Some lines) by (vm_compute; reflexivity).
  assert (H2 : forallb comment_or_blank lines = true) by (vm_compute; reflexivity).
  split; [exact H1|]. split; [exact H2|].
  exact (comments_only_gitignore sample_cwd sample_fs content lines [] [] H1 H2).
Defined.

(** ** What the file list holds *)

Section CompletenessFacts.

Variable cwd : string.
Hypothesis cwd_valid : valid_cwd cwd.
Variable spec : PathSpec.t.

(** A directory reached through directories that do not match is visited. *)
Lemma subdir_visited (d target : Dir) (comps : list string) :
  subdir_at d comps target ->
  forall base files subdirs,
    target = MkDir files subdirs ->
    (forall pre suf, pre <> [] -> comps = (pre ++ suf)%list ->
                     PathSpec.match_file spec (rel_of (base ++ pre) ++ "/") = false) ->
    In ((base ++ comps)%list, files) (visits spec base d).
Proof.
  induction 1 as [d|files0 subdirs0 name sub comps target Hin Hsub IH];
    intros base files subdirs Htarget Hun.
  - subst d. cbn [visits]. left. now rewrite app_nil_r.
  - cbn [visits]. right. apply in_flat_map. exists (name, Some sub).
    split; [exact Hin|]. cbn [fst snd].
    rewrite (Hun [name] comps) by (discriminate || reflexivity).
    replace (base ++ name :: comps)%list with ((base ++ [name]) ++ comps)%list
      by now rewrite <- app_assoc.
    apply (IH _ _ subdirs Htarget). intros pre suf Hpre E.
    rewrite <- app_assoc. apply (Hun ([name] ++ pre)%list suf); [discriminate|].
    cbn [app]. now rewrite E.
Qed.

(** X4.  A file is in the file list when it sits in a directory that is
    reached from the root through directories none of which matches, does
    not match itself and is not named [.gitignore]. *)
Theorem unignored_file_is_collected (fs : Dir) (comps files : list string)
        (subdirs : list (string * option Dir)) (file : string) :
  wf_dir fs = true ->
  subdir_at fs comps (MkDir files subdirs) ->
  unpruned spec comps ->
  In file files ->
  PathSpec.match_file spec (rel_of (comps ++ [file])) = false ->
  file <> ".gitignore" ->
  In (rel_of (comps ++ [file])) (collect_files cwd spec fs).
Proof.
  intros Hwf Hat Hun Hfile Hmatch Hname.
  rewrite collect_files_entries by assumption.
  apply in_entry_files. exists (List.length comps), file.
  unfold walk_entries. apply in_flat_map. exists (comps, files). split.
  - apply (subdir_visited fs _ comps Hat [] files subdirs eq_refl).
    intros pre suf Hpre E. cbn [app]. exact (Hun pre suf Hpre E).
  - cbn [dir_entries]. right.
    apply (in_map (fun file => FileEntry (List.length comps) file
                                         (rel_of (comps ++ [file])))).
    apply listed_files_in. auto.
Qed.

End CompletenessFacts.

Lemma sample_util_at :
  subdir_at sample_fs ["src"; "util"] (MkDir ["z.py"; "a.py"] []).
Proof.
  unfold sample_fs.
  eapply subdir_below; [left; reflexivity|].
  eapply subdir_below; [left; reflexivity|].
  apply subdir_here.
Qed.

Lemma sample_util_unpruned : unpruned sample_spec ["src"; "util"].
Proof.
  intros pre suf Hpre E.
  destruct pre as [|a [|b [|c pre]]]; [congruence| | |].
  - injection E as <- _. vm_compute. reflexivity.
  - injection E as <- <- _. vm_compute. reflexivity.
  - destruct suf; discriminate.
Qed.

Lemma unignored_file_is_collected_witness :
  valid_cwd sample_cwd
  /\ wf_dir sample_fs = true
  /\ subdir_at sample_fs ["src"; "util"] (MkDir ["z.py"; "a.py"] [])
  /\ unpruned sample_spec ["src"; "util"]
  /\ In "a.py" ["z.py"; "a.py"]
  /\ PathSpec.match_file sample_spec (rel_of (["src"; "util"] ++ ["a.py"])) = false
  /\ "a.py" <> ".gitignore"
  /\ In (rel_of (["src"; "util"] ++ ["a.py"]))
        (collect_files sample_cwd sample_spec sample_fs).
Proof.
  assert (H1 : In "a.py" ["z.py"; "a.py"]) by (right; left; reflexivity).
  assert (H2 : PathSpec.match_file sample_spec
                 (rel_of (["src"; "util"] ++ ["a.py"])) = false)
    by (vm_compute; reflexivity).
  assert (H3 : "a.py" <> ".gitignore") by discriminate.
  split; [exact sample_cwd_valid|]. split; [exact sample_fs_wf|].
  split; [exact sample_util_at|]. split; [exact sample_util_unpruned|].
  split; [exact H1|]. split; [exact H2|]. split; [exact H3|].
  exact (unignored_file_is_collected
           sample_cwd sample_cwd_valid sample_spec sample_fs
           ["src"; "util"] ["z.py"; "a.py"] [] "a.py"
           sample_fs_wf sample_util_at sample_util_unpruned H1 H2 H3).
Defined.

(** ** No path twice *)

Section DistinctFacts.

Variable cwd : string.
Hypothesis cwd_valid : valid_cwd cwd.
Variable spec : PathSpec.t.

Lemma distinct_NoDup (names : list string) : distinct names = true -> NoDup names.
Proof.
  induction names as [|n names IH]; cbn [distinct]; [constructor|].
  rewrite andb_true_iff, negb_true_iff. intros [Hn Hrest].
  constructor; [|now apply IH].
  intros Hin. assert (E : existsb (String.eqb n) names = true).
  { apply existsb_exists. exists n. split; [exact Hin | apply String.eqb_refl]. }
  congruence.
Qed.

Lemma distinct_names_inv (files : list string) (subdirs : list (string * option Dir)) :
  distinct_names (MkDir files subdirs) = true ->
  NoDup files /\ NoDup (map fst subdirs)
  /\ forall entry sub, In entry subdirs -> snd entry = Some sub ->
                       distinct_names sub = true.
Proof.
  cbn [distinct_names]. rewrite !andb_true_iff, forallb_forall.
  intros [[Hf Hs] Hsub]. repeat split; try now apply distinct_NoDup.
  intros entry sub Hin E. apply Hsub in Hin. now rewrite E in Hin.
Qed.

Lemma NoDup_map_in {A B : Type} (f : A -> B) (l : list A) :
  (forall x y, In x l -> In y l -> f x = f y -> x = y) ->
  NoDup l -> NoDup (map f l).
Proof.
  intros Hinj H. induction H as [|x l Hx Hl IH]; cbn [map]; constructor.
  - intros Hin. apply in_map_iff in Hin as (y & E & Hy).
    apply Hx. rewrite <- (Hinj y x); auto using in_eq, in_cons.
  - apply IH. intros a b Ha Hb. apply Hinj; now right.
Qed.

(** Lists that are told apart by a key of their elements do not share an
    element. *)
Lemma NoDup_flat_map_key {A B K : Type} (key : B -> K) (k : A -> K)
      (f : A -> list B) (l : list A) :
  (forall a b, In a l -> In b (f a) -> key b = k a) ->
  NoDup (map k l) ->
  (forall a, In a l -> NoDup (f a)) ->
  NoDup (flat_map f l).
Proof.
  intros Hkey Hk Hf. induction l as [|a l IH]; cbn [flat_map]; [constructor|].
  cbn [map] in Hk. apply NoDup_cons_iff in Hk as [Ha Hk].
  apply NoDup_app.
  - apply Hf. now left.
  - apply IH; auto using in_cons.
  - intros b Hb Hb'. apply in_flat_map in Hb' as (a' & Ha' & Hb').
    apply Ha. apply in_map_iff. exists a'. split; [|exact Ha'].
    rewrite <- (Hkey a b), <- (Hkey a' b); auto using in_eq, in_cons.
Qed.

Lemma visits_prefix (d : Dir) :
  forall comps v, In v (visits spec comps d) -> exists ext, fst v = (comps ++ ext)%list.
Proof.
  induction d as [files subdirs IH] using Dir_nested_ind.
  intros comps v. cbn [visits]. intros [<-|Hin].
  - exists []. cbn [fst]. now rewrite app_nil_r.
  - apply in_flat_map in Hin as ([n o] & He & Hin). cbn [fst snd] in Hin.
    destruct (PathSpec.match_file spec (rel_of (comps ++ [n]) ++ "/")); [contradiction|].
    destruct o as [sub|]; [|contradiction].
    rewrite Forall_forall in IH.
    destruct (IH _ He sub eq_refl _ _ Hin) as (ext & E).
    exists (n :: ext). rewrite E, <- app_assoc. reflexivity.
Qed.

(** Under distinct names, no directory is visited twice. *)
Lemma visits_NoDup (d : Dir) :
  forall comps, distinct_names d = true -> NoDup (map fst (visits spec comps d)).
Proof.
  induction d as [files subdirs IH] using Dir_nested_ind.
  intros comps Hd. apply distinct_names_inv in Hd as (_ & Hs & Hsub).
  cbn [visits map fst]. rewrite map_flat_map.
  assert (Hbelow : forall entry c,
             In entry subdirs ->
             In c (map fst
                       (if PathSpec.match_file spec
                             (rel_of (comps ++ [fst entry]) ++ "/")
                        then []
                        else match snd entry with
                             | Some sub => visits spec (comps ++ [fst entry]) sub
                             | None => []
                             end)) ->
             exists ext, c = (comps ++ fst entry :: ext)%list).
  { intros [n o] c He Hc. cbn [fst snd] in *.
    destruct (PathSpec.match_file spec (rel_of (comps ++ [n]) ++ "/")); [contradiction|].
    destruct o as [sub|]; [|contradiction].
    apply in_map_iff in Hc as (v & <- & Hv).
    destruct (visits_prefix _ _ _ Hv) as (ext & ->).
    exists ext. now rewrite <- app_assoc. }
  constructor.
  - intros Hin. apply in_flat_map in Hin as (entry & He & Hc).
    destruct (Hbelow _ _ He Hc) as (ext & E).
    apply (f_equal (@List.length string)) in E.
    rewrite length_app in E. cbn [List.length] in E. lia.
  - apply (NoDup_flat_map_key (fun c => nth (List.length comps) c "") fst).
    + intros entry c He Hc. destruct (Hbelow _ _ He Hc) as (ext & ->).
      apply nth_middle.
    + exact Hs.
    + intros [n o] He. cbn [fst snd].
      destruct (PathSpec.match_file spec (rel_of (comps ++ [n]) ++ "/")); [constructor|].
      destruct o as [sub|]; [|constructor].
      rewrite Forall_forall in IH. apply (IH _ He sub eq_refl).
      exact (Hsub _ _ He eq_refl).
Qed.

Lemma collect_files_visits (fs : Dir) :
  wf_dir fs = true ->
  collect_files cwd spec fs
  = flat_map (fun v => map (fun file => rel_of (fst v ++ [file]))
                           (listed_files spec (fst v) (snd v)))
             (visits spec [] fs).
Proof.
  intros Hwf. rewrite collect_files_entries by assumption.
  unfold walk_entries. rewrite entry_files_flat_map.
  apply flat_map_ext. intros [comps files]. cbn [dir_entries fst snd].
  unfold entry_files. cbn [flat_map app].
  induction (listed_files spec comps files) as [|f l IH]; [reflexivity|].
  cbn [map flat_map app]. now rewrite IH.
Qed.

Lemma listed_path_components (comps files : list string) (file : string) :
  valid_names comps -> valid_names files ->
  In file (listed_files spec comps files) ->
  removelast (Str.split Str.slash (rel_of (comps ++ [file]))) = comps.
Proof.
  intros Hc Hf Hin.
  assert (Hv : valid_names (comps ++ [file])).
  { apply valid_names_snoc; [assumption|].
    apply listed_files_in in Hin as [Hin _].
    unfold valid_names in Hf. rewrite Forall_forall in Hf. auto. }
  replace (rel_of (comps ++ [file])) with (Str.join "/" (comps ++ [file]))
    by now destruct comps.
  rewrite split_join; [apply removelast_last | now apply valid_names_no_slash |].
  now destruct comps.
Qed.

(** X5.  When no directory holds two entries of one name, the file list
    names no path twice. *)
Theorem collect_files_NoDup (fs : Dir) :
  wf_dir fs = true ->
  distinct_names fs = true ->
  NoDup (collect_files cwd spec fs).
Proof.
  intros Hwf Hd. rewrite collect_files_visits by assumption.
  pose proof (visits_inv spec fs [] Hwf (Forall_nil _) (unpruned_nil spec)) as Hinv.
  rewrite Forall_forall in Hinv.
  apply (NoDup_flat_map_key
           (fun path => removelast (Str.split Str.slash path)) fst).
  - intros [comps files] path Hv Hpath. cbn [fst snd] in *.
    apply in_map_iff in Hpath as (file & <- & Hfile).
    destruct (Hinv _ Hv) as (Hc & Hf & _).
    now apply (listed_path_components comps files).
  - now apply visits_NoDup.
  - intros [comps files] Hv. cbn [fst snd].
    destruct (Hinv _ Hv) as (Hc & Hf & _). cbn [fst snd] in Hc, Hf.
    apply NoDup_map_in.
    + intros x y Hx Hy E.
      rewrite <- (name_rel_of comps x), <- (name_rel_of comps y), E;
        try reflexivity; try assumption.
      * apply listed_files_in in Hy as [Hy _].
        unfold valid_names in Hf. rewrite Forall_forall in Hf. auto.
      * apply listed_files_in in Hx as [Hx _].
        unfold valid_names in Hf. rewrite Forall_forall in Hf. auto.
    + unfold listed_files. apply NoDup_filter.
      eapply Permutation_NoDup; [apply StringSort.Permuted_sort|].
      (* the files of a visited directory are distinct *)
      clear Hinv Hc Hf.
      revert Hv. generalize (@nil string) as base.
      revert Hd. clear Hwf. induction fs as [files0 subdirs0 IH] using Dir_nested_ind.
      intros Hd base Hv. apply distinct_names_inv in Hd as (Hfiles & _ & Hsub).
      cbn [visits] in Hv. destruct Hv as [E|Hv]; [now injection E as _ <-|].
      apply in_flat_map in Hv as ([n o] & He & Hv). cbn [fst snd] in Hv.
      destruct (PathSpec.match_file spec (rel_of (base ++ [n]) ++ "/"));
        [contradiction|].
      destruct o as [sub|]; [|contradiction].
      rewrite Forall_forall in IH.
      exact (IH _ He sub eq_refl (Hsub _ _ He eq_refl) _ Hv).
Qed.

End DistinctFacts.

Lemma sample_fs_distinct : distinct_names sample_fs = true.
Proof. vm_compute. reflexivity. Qed.

Lemma collect_files_NoDup_witness :
  valid_cwd sample_cwd
  /\ wf_dir sample_fs = true
  /\ distinct_names sample_fs = true
  /\ NoDup (collect_files sample_cwd sample_spec sample_fs).
Proof.
  split; [exact sample_cwd_valid|]. split; [exact sample_fs_wf|].
  split; [exact sample_fs_distinct|].
  exact (collect_files_NoDup sample_cwd sample_cwd_valid sample_spec sample_fs
                             sample_fs_wf sample_fs_distinct).
Defined.

(** ** More on the document assembler *)

Section AssemblerExtras.

Variable stdout : Console.Stdout.
Variable w : World.

Lemma utf8_decode_nonempty (bs : list byte) : utf8_decode bs = "" -> bs = [].
Proof.
  destruct bs as [|b0 r0]; [reflexivity|].
  cbn [utf8_decode]. unfold chr, replacement_character. intros H. exfalso.
  repeat match type of H with
         | context [if ?c then _ else _] => destruct c
         | context [match ?l with [] => _ | _ :: _ => _ end] => destruct l
         end; discriminate.
Qed.

Lemma universal_newlines_nonempty (s : string) : universal_newlines s = "" -> s = "".
Proof.
  destruct s as [|a s]; [reflexivity|]. cbn [universal_newlines].
  destruct (Ascii.eqb a Str.carriage_return); [|discriminate].
  destruct s as [|b s]; [discriminate|]. destruct (Ascii.eqb b Str.newline); discriminate.
Qed.

Lemma split_lines_nonempty (s : string) : split_lines s = [] -> s = "".
Proof.
  destruct s as [|a s]; [reflexivity|]. cbn [split_lines].
  destruct (Ascii.eqb a Str.newline); [discriminate|].
  destruct (split_lines s); discriminate.
Qed.

Lemma readlines_nil_iff (content : list byte) : readlines content = [] <-> content = [].
Proof.
  split; [|now intros ->]. unfold readlines. intros H.
  now apply utf8_decode_nonempty, universal_newlines_nonempty, split_lines_nonempty.
Qed.

(** X6.  For a file that passes the binary check and can be read, the loop
    reports [(Empty file)] on the console exactly when the file has no
    bytes at all. *)
Theorem empty_warning_iff_no_bytes (file : string) (content : list byte)
        (output : list string) :
  is_binary_file w file = false ->
  text_open (w file) = Returns content ->
  (In (Colorama.YELLOW ++ "(Empty file)" ++ Colorama.RESET_ALL)
      (snd (file_step stdout w output file []))
   <-> content = []).
Proof.
  intros Hbin Htext. unfold_console. rewrite Hbin, Htext.
  destruct (readlines content) as [|line lines] eqn:E; cbn [fst snd app].
  - apply readlines_nil_iff in E. split; [now intros _ | intros _].
    right. right. left. reflexivity.
  - split.
    + destruct (Console.refused stdout _); cbn [fst snd app];
        intros [H|[H|[H|[H|[]]]]]; discriminate H.
    + intros ->. discriminate E.
Qed.

(** X7.  A text file whose whole content is the words of the binary
    placeholder gets the section a binary file gets: the document does not
    tell the two apart. *)
Theorem placeholder_text_looks_binary (w' : World) (file tree : string)
        (files : list string) (con con' : Console.t) :
  w file = regular (bytes_of "(Binary file omitted)") ->
  is_binary_file w' file = true ->
  (forall other, In other files -> other <> file -> w other = w' other) ->
  fst (build_final_string stdout w tree files con)
  = fst (build_final_string stdout w' tree files con').
Proof.
  intros Htext Hbin Hothers. rewrite !build_final_string_sections. do 2 f_equal.
  apply flat_map_ext_in. intros other Hin.
  destruct (string_dec other file) as [->|Hneq].
  - rewrite (section_binary stdout w' file Hbin).
    rewrite (section_text stdout w file (bytes_of "(Binary file omitted)")).
    + reflexivity.
    + unfold is_binary_file. now rewrite Htext.
    + now rewrite Htext.
    + vm_compute. discriminate.
  - apply file_section_ext. now apply Hothers.
Qed.

Lemma file_step_console (output : list string) (file : string) (con : Console.t) :
  exists a b c d, snd (file_step stdout w output file con) = (con ++ [a; b; c; d])%list.
Proof.
  unfold_console. destruct (is_binary_file w file); cbn [fst snd].
  - do 4 eexists. now rewrite <- !app_assoc.
  - destruct (text_open (w file)) as [content|e]; cbn [fst snd].
    + destruct (readlines content); cbn [fst snd];
        destruct (Console.refused stdout _); cbn [fst snd]; do 4 eexists;
        now rewrite <- !app_assoc.
    + do 4 eexists. now rewrite <- !app_assoc.
Qed.

Lemma for_each_file_console (files : list string) :
  forall output con,
  exists out, snd (for_each_file stdout w files output con) = (con ++ out)%list
              /\ List.length out = 4 * List.length files.
Proof.
  induction files as [|file files IH]; intros output con; cbn [for_each_file].
  - exists []. unfold Console.ret. cbn [snd]. now rewrite app_nil_r.
  - unfold Console.bind.
    destruct (file_step stdout w output file con) as [output' con'] eqn:E.
    destruct (file_step_console output file con) as (a & b & c & d & Hc).
    rewrite E in Hc. cbn [snd] in Hc. subst con'.
    destruct (IH output' (con ++ [a; b; c; d])%list) as (out & -> & Hlen).
    exists ([a; b; c; d] ++ out)%list. split; [now rewrite app_assoc|].
    rewrite length_app, Hlen. cbn [List.length]. lia.
Qed.

(** X8.  [build_final_string] leaves what is on the console in place and
    prints four entries for every file of the list, whatever becomes of the
    file. *)
Theorem console_grows_by_four (tree : string) (files : list string)
        (con : Console.t) :
  exists out,
    snd (build_final_string stdout w tree files con) = (con ++ out)%list
    /\ List.length out = 4 * List.length files.
Proof.
  unfold build_final_string, Console.bind, Console.ret.
  destruct (for_each_file_console files ["Project Tree:"; tree; ""] con)
    as (out & E & Hlen).
  destruct (for_each_file stdout w files ["Project Tree:"; tree; ""] con) as [o c].
  cbn [snd] in *. eauto.
Qed.




(** X10.  The preview printed for a text file is a piece of what goes into
    the document: the text before the ellipsis is a prefix of the content
    of the file's section.  Where the console refuses the preview, the
    message of the handler is printed in its place and follows the content
    in the section. *)
Theorem preview_is_prefix_of_content (file : string) (content : list byte)
        (output : list string) (con : Console.t) :
  is_binary_file w file = false ->
  text_open (w file) = Returns content ->
  readlines content <> [] ->
  exists preview rest,
    match Console.refused stdout (preview_text preview) with
    | None =>
        In (Colorama.WHITE ++ preview ++ "..." ++ Str.nl ++ Colorama.RESET_ALL)
           (snd (file_step stdout w output file con))
        /\ file_section stdout w file
           = [file_header file; ((preview ++ rest) ++ Str.nl)%string]
    | Some e =>
        In (Colorama.RED ++ ("(Could not read file: " ++ e ++ ")")
              ++ Colorama.RESET_ALL)
           (snd (file_step stdout w output file con))
        /\ file_section stdout w file
           = [file_header file; ((preview ++ rest) ++ Str.nl)%string;
              could_not_read e]
    end.
Proof.
  intros Hbin Htext Hlines.
  destruct (rstrip_nl_cut (Str.join "" (firstn 20 (readlines content))))
    as (cut & Hcut & _).
  exists (Str.rstrip_nl (Str.join "" (firstn 20 (readlines content)))),
    (cut ++ Str.join "" (skipn 20 (readlines content))).
  assert (Hbody : Str.join "" (readlines content)
                  = Str.rstrip_nl (Str.join "" (firstn 20 (readlines content)))
                      ++ cut ++ Str.join "" (skipn 20 (readlines content))).
  { rewrite <- (firstn_skipn 20 (readlines content)) at 1.
    rewrite join_empty_app. rewrite Hcut at 1. now rewrite append_assoc. }
  rewrite (section_text stdout w file content Hbin Htext Hlines), <- Hbody.
  assert (Hcon : snd (file_step stdout w output file con)
                 = (con ++ [(Colorama.GREEN ++ "### File: " ++ file
                               ++ Colorama.RESET_ALL)%string;
                            (Colorama.MAGENTA ++ "### Code block below:"
                               ++ Colorama.RESET_ALL)%string;
                            match Console.refused stdout
                                    (preview_text
                                       (Str.rstrip_nl
                                          (Str.join "" (firstn 20 (readlines content)))))
                            with
                            | None =>
                                preview_text
                                  (Str.rstrip_nl
                                     (Str.join "" (firstn 20 (readlines content))))
                            | Some e =>
                                (Colorama.RED ++ ("(Could not read file: " ++ e ++ ")")
                                   ++ Colorama.RESET_ALL)%string
                            end;
                            ""])%list).
  { unfold_console. rewrite Hbin, Htext.
    destruct (readlines content) eqn:E; [congruence|].
    unfold preview_text. destruct (Console.refused stdout _);
      cbn [fst snd]; rewrite <- !app_assoc; reflexivity. }
  rewrite Hcon.
  destruct (Console.refused stdout _) as [e|]; (split; [|reflexivity]);
    apply in_or_app; right; right; right; left; reflexivity.
Qed.

(** X11.  The binary check looks at no byte behind the first 1024: two
    files that agree on a first part of 1024 bytes or more get the same
    verdict. *)
Theorem binary_check_reads_the_chunk_only (w' : World) (file : string)
        (chunk later later' : list byte) :
  binary_open (w file) = Returns (chunk ++ later)%list ->
  binary_open (w' file) = Returns (chunk ++ later')%list ->
  1024 <= List.length chunk ->
  is_binary_file w file = is_binary_file w' file.
Proof.
  intros H H' Hlen. unfold is_binary_file. rewrite H, H'.
  rewrite !firstn_app.
  replace (1024 - List.length chunk) with 0 by lia.
  reflexivity.
Qed.

End AssemblerExtras.

Lemma collected_files_do_not_match_witness :
  In "src/main.py" (collect_files sample_cwd sample_spec sample_fs)
  /\ PathSpec.match_file sample_spec "src/main.py" = false.
Proof.
  assert (H : In "src/main.py" (collect_files sample_cwd sample_spec sample_fs)).
  { vm_compute. right. right. left. reflexivity. }
  split; [exact H|].
  exact (collected_files_do_not_match sample_cwd sample_spec sample_fs _ H).
Defined.

Lemma empty_warning_iff_no_bytes_witness :
  is_binary_file sample_world "empty" = false
  /\ text_open (sample_world "empty") = Returns []
  /\ (In (Colorama.YELLOW ++ "(Empty file)" ++ Colorama.RESET_ALL)
         (snd (file_step utf8_stdout sample_world [] "empty" []))
      <-> @nil byte = []).
Proof.
  assert (H1 : is_binary_file sample_world "empty" = false) by reflexivity.
  assert (H2 : text_open (sample_world "empty") = Returns []) by reflexivity.
  split; [exact H1|]. split; [exact H2|].
  exact (empty_warning_iff_no_bytes utf8_stdout sample_world "empty" [] [] H1 H2).
Defined.

(** A world in which [note] holds the words of the placeholder, and one in
    which it holds a null byte. *)
Lemma placeholder_text_looks_binary_witness :
  let w : World :=
    fun p => if p =? "note" then regular (bytes_of "(Binary file omitted)")
             else sample_world p in
  let w' : World :=
    fun p => if p =? "note" then regular [x00] else sample_world p in
  w "note" = regular (bytes_of "(Binary file omitted)")
  /\ is_binary_file w' "note" = true
  /\ (forall other, In other ["a.txt"; "note"] -> other <> "note" ->
                    w other = w' other)
  /\ fst (build_final_string utf8_stdout w "./" ["a.txt"; "note"] [])
     = fst (build_final_string utf8_stdout w' "./" ["a.txt"; "note"] []).
Proof.
  intros w w'.
  assert (H1 : w "note" = regular (bytes_of "(Binary file omitted)")) by reflexivity.
  assert (H2 : is_binary_file w' "note" = true) by reflexivity.
  assert (H3 : forall other, In other ["a.txt"; "note"] -> other <> "note" ->
                             w other = w' other).
  { intros other [<-|[<-|[]]] Hneq; [reflexivity | congruence]. }
  split; [exact H1|]. split; [exact H2|]. split; [exact H3|].
  exact (placeholder_text_looks_binary utf8_stdout w w' "note" "./" _ [] [] H1 H2 H3).
Defined.

Lemma preview_is_prefix_of_content_witness :
  is_binary_file sample_world "long.txt" = false
  /\ text_open (sample_world "long.txt") = Returns (bytes_of sample_long_text)
  /\ readlines (bytes_of sample_long_text) <> []
  /\ exists preview rest,
      match Console.refused utf8_stdout (preview_text preview) with
      | None =>
          In (Colorama.WHITE ++ preview ++ "..." ++ Str.nl ++ Colorama.RESET_ALL)
             (snd (file_step utf8_stdout sample_world [] "long.txt" []))
          /\ file_section utf8_stdout sample_world "long.txt"
             = [file_header "long.txt"; ((preview ++ rest) ++ Str.nl)%string]
      | Some e =>
          In (Colorama.RED ++ ("(Could not read file: " ++ e ++ ")")
                ++ Colorama.RESET_ALL)
             (snd (file_step utf8_stdout sample_world [] "long.txt" []))
          /\ file_section utf8_stdout sample_world "long.txt"
             = [file_header "long.txt"; ((preview ++ rest) ++ Str.nl)%string;
                could_not_read e]
      end.
Proof.
  assert (H1 : is_binary_file sample_world "long.txt" = false)
    by (vm_compute; reflexivity).
  assert (H2 : text_open (sample_world "long.txt")
               = Returns (bytes_of sample_long_text)) by reflexivity.
  assert (H3 : readlines (bytes_of sample_long_text) <> [])
    by (rewrite sample_long_lines; discriminate).
  split; [exact H1|]. split; [exact H2|]. split; [exact H3|].
  exact (preview_is_prefix_of_content utf8_stdout sample_world "long.txt" _ [] []
                                      H1 H2 H3).
Defined.

Lemma binary_check_reads_the_chunk_only_witness :
  let chunk := repeat x61 1024 in
  let w : World := fun _ => regular (chunk ++ [x00])%list in
  let w' : World := fun _ => regular (chunk ++ [x62; x63])%list in
  binary_open (w "f") = Returns (chunk ++ [x00])%list
  /\ binary_open (w' "f") = Returns (chunk ++ [x62; x63])%list
  /\ 1024 <= List.length chunk
  /\ is_binary_file w "f" = is_binary_file w' "f".
Proof.
  intros chunk w w'.
  assert (H : 1024 <= List.length chunk).
  { unfold chunk. rewrite repeat_length. apply le_n. }
  split; [reflexivity|]. split; [reflexivity|]. split; [exact H|].
  exact (binary_check_reads_the_chunk_only w w' "f" chunk [x00] [x62; x63]
                                           eq_refl eq_refl H).
Defined.

(** ** [load_gitignore] and the whole run *)

(** A [.gitignore] that is a directory, and one with a byte of Latin-1 in a
    comment: [open] raises on the first, the decoder on the second, and
    [load_gitignore] has no [try] for either. *)
Example gitignore_that_cannot_be_read :
  fst (load_gitignore (Some (Raises "[Errno 21] Is a directory: '.gitignore'")) [])
  = None
  /\ forallb comment_or_blank
             [string_of_list_byte [x23; x20; x63; x61; x66; xe9; x0a]] = true
  /\ fst (load_gitignore (Some (Returns [x23; x20; x63; x61; x66; xe9; x0a])) [])
     = None
  /\ exists spec,
      fst (load_gitignore (Some (Returns [x23; x20; x63; x61; x66; xc3; xa9; x0a])) [])
      = Some spec.
Proof.
  split; [reflexivity|]. split; [vm_compute; reflexivity|].
  split; [vm_compute; reflexivity|]. eexists. vm_compute. reflexivity.
Qed.

Section RunFacts.

(** X12.  [load_gitignore] raises exactly when [.gitignore] exists and
    cannot be opened, or holds bytes that are not UTF-8, or holds a line
    that does not compile: the built-in list always compiles, and a
    missing or empty [.gitignore] never stops the run. *)
Theorem load_gitignore_fails_iff (gitignore : Gitignore) (con : Console.t) :
  fst (load_gitignore gitignore con) = None
  <-> (exists e, gitignore = Some (Raises e))
      \/ (exists content,
             gitignore = Some (Returns content) /\ utf8_valid content = false)
      \/ (exists content lines,
             gitignore = Some (Returns content)
             /\ readlines_strict content = Some lines
             /\ PathSpec.from_lines lines = None).
Proof.
  rewrite load_gitignore_result. destruct gitignore as [[content|e]|]; cbn [user_lines].
  - unfold readlines_strict. destruct (utf8_valid content) eqn:V.
    + destruct (PathSpec.from_lines _) eqn:E; cbn [option_map].
      * split; [discriminate|].
        intros [(e & [=])|[(c & [= <-] & H)|(c & lines & [= <-] & H & Hl)]];
          [congruence|]. rewrite V in H. injection H as <-. congruence.
      * split; [|reflexivity]. intros _. right. right.
        exists content, (split_lines (universal_newlines (string_of_list_byte content))).
        rewrite V. now repeat split.
    + split; [|reflexivity]. intros _. right. left. now exists content.
  - split; [|reflexivity]. intros _. left. now exists e.
  - cbn [PathSpec.from_lines option_map]. split; [discriminate|].
    intros [(e & [=])|[(c & [=] & _)|(c & lines & [=] & _)]].
Qed.

Variable env : Env.
Variable args : Args.
Variable project : Project.
Hypothesis root_is_dir : isdir env (root_dir args) = Some project.

Lemma build_final_string_console_free (out : Console.Stdout) (w : World)
      (tree : string) (files : list string) (con : Console.t) :
  fst (build_final_string out w tree files con)
  = fst (build_final_string out w tree files []).
Proof. now rewrite !build_final_string_sections. Qed.

(** What a run that gets its matcher leaves in the sinks. *)
Lemma main_cli_sinks (spec : PathSpec.t) (s : Sinks) (con : Console.t) :
  fst (load_gitignore (project_gitignore project) con) = Some spec ->
  let doc := project_document (stdout env) project spec in
  fst (main_cli env args s con)
  = (Completed,
     mkSinks
       (match clipboard_copy env doc with
        | Returns _ => Some doc
        | Raises _ => clipboard s
        end)
       (match output args with
        | Some output_path =>
            if output_path =? "" then written s
            else match file_write env output_path doc with
                 | Returns _ => (written s ++ [(output_path, doc)])%list
                 | Raises _ => written s
                 end
        | None => written s
        end)).
Proof.
  intros Hload doc. destruct s as [cb wr]. unfold main_cli. rewrite root_is_dir.
  unfold Console.bind at 1.
  destruct (load_gitignore (project_gitignore project) con) as [o con1].
  cbn [fst] in Hload. subst o.
  unfold Console.bind at 1.
  destruct (build_final_string (stdout env) (project_files project)
              (build_project_tree (project_cwd project) spec (project_tree project))
              (collect_files (project_cwd project) spec (project_tree project))
              con1) as [final_string con2] eqn:E.
  assert (Hdoc : final_string = doc).
  { change final_string with (fst (final_string, con2)). rewrite <- E.
    apply build_final_string_console_free. }
  subst final_string.
  unfold copy_to_clipboard, write_output_file, Console.bind, Console.ret,
    print_info, print_error, Console.print.
  destruct (clipboard_copy env doc); cbn [fst snd clipboard written];
    (destruct (output args) as [output_path|]; cbn [fst snd]; [|reflexivity]);
    (destruct (output_path =? ""); cbn [fst snd]; [reflexivity|]);
    destruct (file_write env output_path doc); reflexivity.
Qed.

(** X13.  When both sinks work, the clipboard and the output file receive
    one and the same string, the document of the project, and the run
    completes. *)
Theorem both_sinks_receive_the_document (spec : PathSpec.t) (s : Sinks)
        (con : Console.t) (output_path : string) :
  fst (load_gitignore (project_gitignore project) con) = Some spec ->
  output args = Some output_path ->
  output_path <> "" ->
  (exists u, clipboard_copy env (project_document (stdout env) project spec)
             = Returns u) ->
  (exists u, file_write env output_path (project_document (stdout env) project spec)
             = Returns u) ->
  fst (main_cli env args s con)
  = (Completed,
     mkSinks (Some (project_document (stdout env) project spec))
             (written s
                ++ [(output_path, project_document (stdout env) project spec)])%list).
Proof.
  intros Hload Hout Hne (u & Hcopy) (u' & Hwrite).
  rewrite (main_cli_sinks spec s con Hload). cbn zeta.
  rewrite Hcopy, Hout, Hwrite.
  apply String.eqb_neq in Hne. now rewrite Hne.
Qed.



(** X16.  Without an output path, or with an empty one, the run writes no
    file, whatever writing would have done. *)
Theorem no_output_path_no_file (spec : PathSpec.t) (s : Sinks) (con : Console.t) :
  fst (load_gitignore (project_gitignore project) con) = Some spec ->
  output args = None \/ output args = Some "" ->
  written (snd (fst (main_cli env args s con))) = written s.
Proof.
  intros Hload Hout. rewrite (main_cli_sinks spec s con Hload). cbn zeta.
  cbn [fst snd written]. now destruct Hout as [-> | ->].
Qed.

(** X17.  A line of [.gitignore] that does not compile ends the run with
    the exception, before anything is copied or written. *)
Theorem bad_pattern_stops_the_run (lines : list string) (s : Sinks)
        (con : Console.t) :
  user_lines (project_gitignore project) = Some lines ->
  PathSpec.from_lines lines = None ->
  fst (main_cli env args s con) = (Uncaught, s).
Proof.
  intros Hgit Hlines. unfold main_cli. rewrite root_is_dir.
  unfold Console.bind at 1.
  destruct (load_gitignore (project_gitignore project) con) as [o con1] eqn:E.
  assert (Ho : o = None).
  { change o with (fst (o, con1)). rewrite <- E.
    now rewrite load_gitignore_result, Hgit, Hlines. }
  now subst o.
Qed.

End RunFacts.

(** When the root is not a directory, the run prints one error and
    leaves through [sys.exit(1)]: nothing is copied and nothing is
    written. *)
Lemma invalid_root_exits (env : Env) (args : Args) (s : Sinks) (con : Console.t) :
  isdir env (root_dir args) = None ->
  main_cli env args s con
  = ((SysExit 1, s),
     (con ++ [(Colorama.RED
                 ++ ("The specified root directory '" ++ root_dir args
                       ++ "' does not exist or is not a directory.")
                 ++ Colorama.RESET_ALL)%string])%list).
Proof.
  intros H. unfold main_cli. rewrite H. reflexivity.
Qed.

Lemma both_sinks_receive_the_document_witness :
  isdir working_env (root_dir (mkArgs "." (Some "out.txt"))) = Some sample_project
  /\ fst (load_gitignore (project_gitignore sample_project) []) = Some sample_spec
  /\ fst (main_cli working_env (mkArgs "." (Some "out.txt")) no_sinks [])
     = (Completed,
        mkSinks (Some (project_document utf8_stdout sample_project sample_spec))
                (written no_sinks
                   ++ [("out.txt",
                        project_document utf8_stdout sample_project sample_spec)])%list).
Proof.
  assert (H : isdir working_env (root_dir (mkArgs "." (Some "out.txt")))
              = Some sample_project) by reflexivity.
  split; [exact H|]. split; [exact sample_spec_loaded|].
  refine (both_sinks_receive_the_document
            working_env (mkArgs "." (Some "out.txt")) sample_project H
            sample_spec no_sinks [] "out.txt" sample_spec_loaded eq_refl _ _ _).
  - discriminate.
  - exists tt. reflexivity.
  - exists tt. reflexivity.
Defined.



Lemma no_output_path_no_file_witness :
  isdir working_env (root_dir (mkArgs "." (Some ""))) = Some sample_project
  /\ (output (mkArgs "." (Some "")) = None \/ output (mkArgs "." (Some "")) = Some "")
  /\ written (snd (fst (main_cli working_env (mkArgs "." (Some "")) no_sinks [])))
     = written no_sinks.
Proof.
  assert (H : isdir working_env (root_dir (mkArgs "." (Some ""))) = Some sample_project)
    by reflexivity.
  assert (Hout : output (mkArgs "." (Some "")) = None
                 \/ output (mkArgs "." (Some "")) = Some "") by (right; reflexivity).
  split; [exact H|]. split; [exact Hout|].
  exact (no_output_path_no_file
           working_env (mkArgs "." (Some "")) sample_project H
           sample_spec no_sinks [] sample_spec_loaded Hout).
Defined.

Lemma bad_pattern_stops_the_run_witness :
  isdir broken_env (root_dir (mkArgs "." (Some "out.txt"))) = Some broken_project
  /\ user_lines (project_gitignore broken_project) = Some ["!"]
  /\ PathSpec.from_lines ["!"] = None
  /\ fst (main_cli broken_env (mkArgs "." (Some "out.txt")) no_sinks [])
     = (Uncaught, no_sinks).
Proof.
  assert (H : isdir broken_env (root_dir (mkArgs "." (Some "out.txt")))
              = Some broken_project) by reflexivity.
  assert (Hlines : user_lines (project_gitignore broken_project) = Some ["!"])
    by (vm_compute; reflexivity).
  assert (Hbad : PathSpec.from_lines ["!"] = None) by (vm_compute; reflexivity).
  split; [exact H|]. split; [exact Hlines|]. split; [exact Hbad|].
  exact (bad_pattern_stops_the_run
           broken_env (mkArgs "." (Some "out.txt")) _ H ["!"] no_sinks []
           Hlines Hbad).
Defined.

(** ** What the walk does not depend on *)

Section IndependenceFacts.

Variable cwd : string.
Variable spec : PathSpec.t.

Lemma leb_refl (a : string) : String.leb a a = true.
Proof. now destruct (String.leb_total a a). Qed.

(** Two sorted lists of the same elements are one list. *)
Lemma sorted_unique (l1 l2 : list string) :
  StronglySorted le_string l1 -> StronglySorted le_string l2 ->
  Permutation l1 l2 -> l1 = l2.
Proof.
  intros H1. revert l2. induction H1 as [|x t1 Ht1 IH Hx]; intros l2 H2 Hp.
  - now apply Permutation_nil in Hp.
  - destruct H2 as [|y t2 Ht2 Hy].
    + apply Permutation_sym, Permutation_nil in Hp. discriminate.
    + assert (E : x = y).
      { apply String.leb_antisym.
        - assert (Hin : In y (x :: t1))
            by (eapply Permutation_in; [symmetry; exact Hp | now left]).
          destruct Hin as [->|Hin]; [apply leb_refl|].
          rewrite Forall_forall in Hx. now apply Hx.
        - assert (Hin : In x (y :: t2))
            by (eapply Permutation_in; [exact Hp | now left]).
          destruct Hin as [->|Hin]; [apply leb_refl|].
          rewrite Forall_forall in Hy. now apply Hy. }
      subst y. f_equal. apply IH; [assumption|].
      now apply Permutation_cons_inv in Hp.
Qed.

Lemma sorted_of_permutation (files files' : list string) :
  Permutation files files' -> sorted files = sorted files'.
Proof.
  intros Hp. apply sorted_unique; try apply sorted_strongly.
  unfold sorted.
  eapply Permutation_trans; [symmetry; apply StringSort.Permuted_sort|].
  eapply Permutation_trans; [exact Hp | apply StringSort.Permuted_sort].
Qed.

(** X18.  The order in which the scan of the root lists its files plays no
    part: the tree and the file list are the same for every order. *)
Theorem scan_order_of_files_is_irrelevant (files files' : list string)
        (subdirs : list (string * option Dir)) :
  Permutation files files' ->
  build_project_tree cwd spec (MkDir files subdirs)
  = build_project_tree cwd spec (MkDir files' subdirs)
  /\ collect_files cwd spec (MkDir files subdirs)
     = collect_files cwd spec (MkDir files' subdirs).
Proof.
  intros Hp. unfold build_project_tree.
  rewrite !tree_lines_items, !collect_files_items. cbn [os_walk map flat_map].
  unfold item_view at 1 3 5 7. cbn [fst snd tree_item collect_item].
  unfold item_files. now rewrite (sorted_of_permutation _ _ Hp).
Qed.

Hypothesis cwd_valid : valid_cwd cwd.

Lemma keep_dir_at_root (name : string) :
  valid_name name = true ->
  keep_dir cwd spec "." name = negb (PathSpec.match_file spec (name ++ "/")).
Proof.
  intros Hn. unfold keep_dir. change "." with (top_of []) at 1.
  rewrite relpath_top_of by (assumption || constructor).
  now rewrite rel_of_snoc by (assumption || constructor).
Qed.

(** X19.  What lies below a sub-directory of the root that matches is never
    looked at: the tree and the file list are the same whatever that
    sub-directory holds. *)
Theorem pruned_subtree_is_never_read (files : list string)
        (before after : list (string * option Dir)) (name : string)
        (sub sub' : option Dir) :
  valid_name name = true ->
  PathSpec.match_file spec (name ++ "/") = true ->
  build_project_tree cwd spec (MkDir files (before ++ (name, sub) :: after))
  = build_project_tree cwd spec (MkDir files (before ++ (name, sub') :: after))
  /\ collect_files cwd spec (MkDir files (before ++ (name, sub) :: after))
     = collect_files cwd spec (MkDir files (before ++ (name, sub') :: after)).
Proof.
  intros Hn Hm.
  assert (E : map item_view
                  (os_walk (keep_dir cwd spec) "."
                           (MkDir files (before ++ (name, sub) :: after)))
              = map item_view
                    (os_walk (keep_dir cwd spec) "."
                             (MkDir files (before ++ (name, sub') :: after)))).
  { cbn [os_walk map]. unfold item_view at 1 3. cbn [fst snd]. f_equal. f_equal.
    rewrite !flat_map_app. cbn [flat_map fst snd].
    now rewrite (keep_dir_at_root name Hn), Hm. }
  unfold build_project_tree. now rewrite !tree_lines_items, !collect_files_items, E.
Qed.

End IndependenceFacts.

Lemma scan_order_of_files_is_irrelevant_witness :
  Permutation ["b.txt"; "a.txt"] ["a.txt"; "b.txt"]
  /\ collect_files sample_cwd sample_spec (MkDir ["b.txt"; "a.txt"] [])
     = collect_files sample_cwd sample_spec (MkDir ["a.txt"; "b.txt"] []).
Proof.
  assert (H : Permutation ["b.txt"; "a.txt"] ["a.txt"; "b.txt"])
    by apply perm_swap.
  split; [exact H|].
  exact (proj2 (scan_order_of_files_is_irrelevant
                  sample_cwd sample_spec _ _ [] H)).
Defined.

Lemma pruned_subtree_is_never_read_witness :
  valid_cwd sample_cwd
  /\ valid_name "out" = true
  /\ PathSpec.match_file sample_spec ("out" ++ "/") = true
  /\ collect_files sample_cwd sample_spec
       (MkDir ["a.txt"] ([] ++ ("out", Some (MkDir ["keep.txt"] [])) :: []))
     = collect_files sample_cwd sample_spec
         (MkDir ["a.txt"] ([] ++ ("out", None) :: [])).
Proof.
  assert (H : valid_name "out" = true) by reflexivity.
  split; [exact sample_cwd_valid|]. split; [exact H|].
  split; [exact sample_out_matches|].
  exact (proj2 (pruned_subtree_is_never_read
                  sample_cwd sample_spec sample_cwd_valid ["a.txt"] [] [] "out"
                  (Some (MkDir ["keep.txt"] [])) None H sample_out_matches)).
Defined.
